(** * rent_vs_own: the scenario simulator, embedded and verified

    A shallow embedding of [rent_vs_own/schemas.py] and
    [rent_vs_own/model.py].

    Number model.  Python's [float] is read as a real number ([R]): the
    arithmetic of the source is taken exactly, without binary64 rounding,
    NaN or infinities.  Python's [int] is [Z].  [x ** y] with a float
    exponent is [Rpower], with an integer exponent [powerRZ].

    Exceptions.  A function that can [raise] returns a [result].  With the
    arithmetic taken exactly the modelled code raises [ValueError] only: its
    two divisions by a variable are guarded, [principal / term_months] by
    [term_months > 0] and the division by [1 - discount] by a positive
    monthly rate ([monthly_mortgage_payment_divisors]).

    Rounding.  Facts about order and structure do not depend on the number
    model.  The amortization schedule does: module [Binary64] is the same
    program over IEEE 754 doubles, and runs it where rounding decides. *)

From Stdlib Require Import Reals Lra Lia ZArith List String Bool.
From Stdlib Require Import Floats.PrimFloat Floats.SpecFloat Floats.FloatOps.
Import ListNotations.

Open Scope R_scope.

(** ** Python values and builtins *)

Inductive exn : Type :=
| ValueError (msg : string)
| ZeroDivisionError (msg : string).

Inductive result (A : Type) : Type :=
| Ok (a : A)
| Raise (e : exn).

Arguments Ok {A} a.
Arguments Raise {A} e.

Definition bind {A B : Type} (m : result A) (k : A -> result B) : result B :=
  match m with
  | Ok a => k a
  | Raise e => Raise e
  end.

Notation "x <- m ;; k" := (bind m (fun x => k))
  (at level 61, m at next level, right associativity).

(** Comparisons of floats, as the booleans Python computes. *)
Definition Rleb (x y : R) : bool := if Rle_dec x y then true else false.
Definition Rltb (x y : R) : bool := if Rlt_dec x y then true else false.
Definition Rgeb (x y : R) : bool := if Rge_dec x y then true else false.
Definition Rgtb (x y : R) : bool := if Rgt_dec x y then true else false.
Definition Reqb (x y : R) : bool := if Req_dec_T x y then true else false.

Infix "<=?" := Rleb : R_scope.
Infix "<?" := Rltb : R_scope.
Infix ">=?" := Rgeb : R_scope.
Infix ">?" := Rgtb : R_scope.
Infix "=?" := Reqb : R_scope.

Module Builtins.

(** [max(a, b)]: [b] only when [b > a]. *)
Definition max (a b : R) : R := if b >? a then b else a.

(** [min(a, b)]: [b] only when [b < a]. *)
Definition min (a b : R) : R := if b <? a then b else a.

(** [range(lo, hi)], empty when [hi <= lo]. *)
Definition range (lo hi : Z) : list Z :=
  map (fun i => (lo + Z.of_nat i)%Z) (seq 0 (Z.to_nat (hi - lo))).

End Builtins.

(** ** schemas.py *)

Record LocationFinancialDefaults : Type := {
  cbsa : string;
  name : string;
  median_income : R;
  median_rent : R;
  property_value : R;
  loan_amount : R;
  interest_rate : R;          (* annual percentage, e.g. 6.25 *)
  loan_term_months : Z;
  monthly_taxes : R;
  monthly_insurance : R;
  monthly_utilities : R
}.

Definition down_payment (self : LocationFinancialDefaults) : R :=
  Builtins.max (property_value self - loan_amount self) 0.

Definition loan_to_value (self : LocationFinancialDefaults) : R :=
  if property_value self =? 0 then 0
  else loan_amount self / property_value self.

Definition owner_non_pi_costs (self : LocationFinancialDefaults) : R :=
  monthly_taxes self + monthly_insurance self + monthly_utilities self.

Record ScenarioAssumptions : Type := {
  horizon_years : Z;
  appreciation_rate : R;
  investment_return : R;
  savings_rate_of_income : R
}.

(** [ScenarioAssumptions.__post_init__]. *)
Definition __post_init__ (self : ScenarioAssumptions) : result unit :=
  if (horizon_years self <=? 0)%Z then
    Raise (ValueError "horizon_years must be positive")
  else if negb ((0 <=? savings_rate_of_income self)
                && (savings_rate_of_income self <=? 1)) then
    Raise (ValueError "savings_rate_of_income must be between 0 and 1")
  else Ok tt.

(** The constructor the dataclass generates: the fields are stored, then
    [__post_init__] runs. *)
Definition new_ScenarioAssumptions
    (horizon_years : Z)
    (appreciation_rate investment_return savings_rate_of_income : R)
    : result ScenarioAssumptions :=
  let self := {| horizon_years := horizon_years;
                 appreciation_rate := appreciation_rate;
                 investment_return := investment_return;
                 savings_rate_of_income := savings_rate_of_income |} in
  _ <- __post_init__ self ;;
  Ok self.

(** [ScenarioAssumptions()], every field at its default. *)
Definition default_ScenarioAssumptions : result ScenarioAssumptions :=
  new_ScenarioAssumptions 30 0.03 0.05 0.05.

Module MonthlySnapshot.

(** Every field but [month] is [Optional[float] = None]. *)
Record t : Type := mk {
  month : Z;
  home_value : option R;
  equity : option R;
  loan_balance : option R;
  renter_portfolio : option R
}.

End MonthlySnapshot.

Module ComparisonResult.

(** [owner_equity] and [renter_portfolio] are read from the optional
    fields of the last snapshot, hence options here. *)
Record t : Type := mk {
  defaults : LocationFinancialDefaults;
  assumptions : ScenarioAssumptions;
  owner_monthly_cost : R;
  renter_monthly_cost : R;
  owner_equity : option R;
  renter_portfolio : option R;
  break_even_month : option Z;
  timeline : list MonthlySnapshot.t
}.

End ComparisonResult.

(** ** model.py *)

Definition annual_to_monthly_rate (annual_rate_pct : R) : R :=
  if annual_rate_pct <=? 0 then 0
  else annual_rate_pct / 100 / 12.

Definition annual_to_monthly_growth (annual_rate : R) : result R :=
  if annual_rate <=? -1 then
    Raise (ValueError "annual rate must be greater than -100%")
  else Ok (Rpower (1 + annual_rate) (1 / 12) - 1).

(** With the arithmetic taken exactly neither division can fail: the term
    is positive where the code divides by it, and [1 - discount] is not [0]
    for a positive rate ([monthly_mortgage_payment_divisors]); the function
    is a number here.  On doubles the second division can fail:
    [Binary64.monthly_mortgage_payment] returns a [result]. *)
Definition monthly_mortgage_payment
    (principal annual_rate_pct : R) (term_months : Z) : R :=
  if (principal <=? 0) || (term_months <=? 0)%Z then 0
  else
    let monthly_rate := annual_to_monthly_rate annual_rate_pct in
    if monthly_rate =? 0 then principal / IZR term_months
    else
      let discount := powerRZ (1 + monthly_rate) (- term_months) in
      principal * monthly_rate / (1 - discount).

(** The local variables of [compare_scenarios] that the loop updates. *)
Record locals : Type := {
  balance : R;
  home_value : R;
  portfolio : R;
  break_even : option Z;
  timeline : list MonthlySnapshot.t
}.

Section Loop.

(** What [compare_scenarios] fixes before its loop. *)
Variable defaults : LocationFinancialDefaults.
Variables mortgage_payment mortgage_rate_monthly : R.
Variables appreciation_monthly investment_monthly : R.
Variable monthly_investment : R.

(** Lines 40-45: the month's [(principal_payment, balance)], from the
    balance the month starts with. *)
Definition amortize (balance : R) (month : Z) : R * R :=
  let interest_payment :=
    if balance >? 0 then balance * mortgage_rate_monthly else 0 in
  if (balance >? 0) && (mortgage_payment >? 0)
     && (month <=? loan_term_months defaults)%Z then
    let principal_portion :=
      Builtins.max (mortgage_payment - interest_payment) 0 in
    let principal_payment := Builtins.min principal_portion balance in
    (principal_payment, Builtins.max (balance - principal_payment) 0)
  else (0, balance).

(** One iteration of [for month in range(1, months + 1)]. *)
Definition loop_body (st : locals) (month : Z) : locals :=
  let balance := snd (amortize (balance st) month) in
  let home_value := home_value st * (1 + appreciation_monthly) in
  let equity := Builtins.max (home_value - balance) 0 in
  let portfolio :=
    portfolio st * (1 + investment_monthly) + monthly_investment in
  let break_even :=
    match break_even st with
    | None => if portfolio >=? equity then Some month else None
    | Some m => Some m
    end in
  {| balance := balance;
     home_value := home_value;
     portfolio := portfolio;
     break_even := break_even;
     timeline :=
       timeline st ++
       [MonthlySnapshot.mk month (Some home_value) (Some equity)
                           (Some balance) (Some portfolio)] |}.

Definition loop_init : locals :=
  {| balance := loan_amount defaults;
     home_value := property_value defaults;
     portfolio := 0;
     break_even := None;
     timeline := [] |}.

(** The locals when the loop over [range(1, months + 1)] is done. *)
Definition loop (months : Z) : locals :=
  fold_left loop_body (Builtins.range 1 (months + 1)) loop_init.

(** The locals after the first [k] iterations, those of months [1] to [k]:
    the loop unrolled, for the proofs. *)
Fixpoint after (k : nat) : locals :=
  match k with
  | O => loop_init
  | S k' => loop_body (after k') (1 + Z.of_nat k')
  end.

End Loop.

(** The month's equity, from the locals the month ends with. *)
Definition equity_of (st : locals) : R :=
  Builtins.max (home_value st - balance st) 0.

(** The snapshot [loop_body] appends, from the locals the month ends with. *)
Definition snapshot_of (month : Z) (st : locals) : MonthlySnapshot.t :=
  MonthlySnapshot.mk month (Some (home_value st)) (Some (equity_of st))
                     (Some (balance st)) (Some (portfolio st)).

(** [assumptions or ScenarioAssumptions()]: an instance of the dataclass
    is truthy, [None] is not. *)
Definition assumptions_or_default (assumptions : option ScenarioAssumptions)
    : result ScenarioAssumptions :=
  match assumptions with
  | Some a => Ok a
  | None => default_ScenarioAssumptions
  end.

Definition compare_scenarios
    (defaults : LocationFinancialDefaults)
    (assumptions : option ScenarioAssumptions)
    : result ComparisonResult.t :=
  assumptions <- assumptions_or_default assumptions ;;
  let months := (horizon_years assumptions * 12)%Z in
  let mortgage_payment :=
    monthly_mortgage_payment (loan_amount defaults) (interest_rate defaults)
                             (loan_term_months defaults) in
  let mortgage_rate_monthly :=
    annual_to_monthly_rate (interest_rate defaults) in
  appreciation_monthly <-
    annual_to_monthly_growth (appreciation_rate assumptions) ;;
  investment_monthly <-
    annual_to_monthly_growth (investment_return assumptions) ;;
  let owner_monthly_cost := mortgage_payment + owner_non_pi_costs defaults in
  let renter_monthly_cost := median_rent defaults in
  let monthly_investment :=
    median_income defaults / 12 * savings_rate_of_income assumptions in
  let st := loop defaults mortgage_payment mortgage_rate_monthly
                 appreciation_monthly investment_monthly monthly_investment
                 months in
  Ok (ComparisonResult.mk
        defaults assumptions owner_monthly_cost renter_monthly_cost
        (match timeline st with
         | [] => Some 0
         | s :: tl => MonthlySnapshot.equity (last tl s)
         end)
        (match timeline st with
         | [] => Some 0
         | s :: tl => MonthlySnapshot.renter_portfolio (last tl s)
         end)
        (break_even st)
        (timeline st)).

(** ** The same program over binary64

    The embedding above takes the arithmetic exactly.  [Binary64] is the
    same code over IEEE 754 doubles, which is what Python's [float] is:
    every [+], [-], [*], [/] rounds to nearest, ties to even, comparisons
    are IEEE comparisons, and a division by zero raises.  It serves to run
    the code on concrete inputs where rounding decides the outcome.  [**] is
    the C library's [pow], which no definition here reproduces: it is a
    parameter. *)

Module Binary64.

Local Open Scope float_scope.
Local Set Warnings "-inexact-float".

(** An [int] where a [float] is expected: the nearest double.  Beyond the
    range of the doubles Python raises [OverflowError] where this rounds to
    an infinity; the statements on this module that convert a variable
    [int] bound it. *)
Definition float_of_int (z : Z) : float :=
  SF2Prim (binary_normalize prec emax z 0 false).

(** [x / y] on floats. *)
Definition truediv (x y : float) : result float :=
  if y =? 0 then Raise (ZeroDivisionError "float division by zero")
  else Ok (x / y).

Definition max (a b : float) : float := if a <? b then b else a.

Definition min (a b : float) : float := if b <? a then b else a.

Record LocationFinancialDefaults : Type := {
  cbsa : string;
  name : string;
  median_income : float;
  median_rent : float;
  property_value : float;
  loan_amount : float;
  interest_rate : float;
  loan_term_months : Z;
  monthly_taxes : float;
  monthly_insurance : float;
  monthly_utilities : float
}.

Definition owner_non_pi_costs (self : LocationFinancialDefaults) : float :=
  monthly_taxes self + monthly_insurance self + monthly_utilities self.

Record ScenarioAssumptions : Type := {
  horizon_years : Z;
  appreciation_rate : float;
  investment_return : float;
  savings_rate_of_income : float
}.

Definition __post_init__ (self : ScenarioAssumptions) : result unit :=
  if (horizon_years self <=? 0)%Z then
    Raise (ValueError "horizon_years must be positive")
  else if negb ((0 <=? savings_rate_of_income self)
                && (savings_rate_of_income self <=? 1)) then
    Raise (ValueError "savings_rate_of_income must be between 0 and 1")
  else Ok tt.

Definition new_ScenarioAssumptions
    (horizon_years : Z)
    (appreciation_rate investment_return savings_rate_of_income : float)
    : result ScenarioAssumptions :=
  let self := {| horizon_years := horizon_years;
                 appreciation_rate := appreciation_rate;
                 investment_return := investment_return;
                 savings_rate_of_income := savings_rate_of_income |} in
  _ <- __post_init__ self ;;
  Ok self.

Definition default_ScenarioAssumptions : result ScenarioAssumptions :=
  new_ScenarioAssumptions 30 0.03 0.05 0.05.

Module MonthlySnapshot.

Record t : Type := mk {
  month : Z;
  home_value : option float;
  equity : option float;
  loan_balance : option float;
  renter_portfolio : option float
}.

End MonthlySnapshot.

Module ComparisonResult.

Record t : Type := mk {
  defaults : LocationFinancialDefaults;
  assumptions : ScenarioAssumptions;
  owner_monthly_cost : float;
  renter_monthly_cost : float;
  owner_equity : option float;
  renter_portfolio : option float;
  break_even_month : option Z;
  timeline : list MonthlySnapshot.t
}.

End ComparisonResult.

Record locals : Type := {
  balance : float;
  home_value : float;
  portfolio : float;
  break_even : option Z;
  timeline : list MonthlySnapshot.t
}.

Definition annual_to_monthly_rate (annual_rate_pct : float) : float :=
  if annual_rate_pct <=? 0 then 0
  else annual_rate_pct / 100 / 12.

Section Pow.

(** [x ** y]. *)
Variable pow : float -> float -> float.

Definition annual_to_monthly_growth (annual_rate : float) : result float :=
  if annual_rate <=? -1 then
    Raise (ValueError "annual rate must be greater than -100%")
  else Ok (pow (1 + annual_rate) (1 / 12) - 1).

Definition monthly_mortgage_payment
    (principal annual_rate_pct : float) (term_months : Z) : result float :=
  if (principal <=? 0) || (term_months <=? 0)%Z then Ok 0
  else
    let monthly_rate := annual_to_monthly_rate annual_rate_pct in
    if monthly_rate =? 0 then truediv principal (float_of_int term_months)
    else
      let discount := pow (1 + monthly_rate) (float_of_int (- term_months)) in
      truediv (principal * monthly_rate) (1 - discount).

Definition amortize (defaults : LocationFinancialDefaults)
    (mortgage_payment mortgage_rate_monthly : float)
    (balance : float) (month : Z) : float * float :=
  let interest_payment :=
    if 0 <? balance then balance * mortgage_rate_monthly else 0 in
  if (0 <? balance) && (0 <? mortgage_payment)
     && (month <=? loan_term_months defaults)%Z then
    let principal_portion := max (mortgage_payment - interest_payment) 0 in
    let principal_payment := min principal_portion balance in
    (principal_payment, max (balance - principal_payment) 0)
  else (0, balance).

Definition loop_body (defaults : LocationFinancialDefaults)
    (mortgage_payment mortgage_rate_monthly : float)
    (appreciation_monthly investment_monthly monthly_investment : float)
    (st : locals) (month : Z) : locals :=
  let balance :=
    snd (amortize defaults mortgage_payment mortgage_rate_monthly
                  (balance st) month) in
  let home_value := home_value st * (1 + appreciation_monthly) in
  let equity := max (home_value - balance) 0 in
  let portfolio :=
    portfolio st * (1 + investment_monthly) + monthly_investment in
  let break_even :=
    match break_even st with
    | None => if equity <=? portfolio then Some month else None
    | Some m => Some m
    end in
  {| balance := balance;
     home_value := home_value;
     portfolio := portfolio;
     break_even := break_even;
     timeline :=
       timeline st ++
       [MonthlySnapshot.mk month (Some home_value) (Some equity)
                           (Some balance) (Some portfolio)] |}.

Definition compare_scenarios
    (defaults : LocationFinancialDefaults)
    (assumptions : option ScenarioAssumptions) : result ComparisonResult.t :=
  assumptions <- match assumptions with
                 | Some a => Ok a
                 | None => default_ScenarioAssumptions
                 end ;;
  let months := (horizon_years assumptions * 12)%Z in
  mortgage_payment <-
    monthly_mortgage_payment (loan_amount defaults) (interest_rate defaults)
                             (loan_term_months defaults) ;;
  let mortgage_rate_monthly :=
    annual_to_monthly_rate (interest_rate defaults) in
  appreciation_monthly <-
    annual_to_monthly_growth (appreciation_rate assumptions) ;;
  investment_monthly <-
    annual_to_monthly_growth (investment_return assumptions) ;;
  let owner_monthly_cost := mortgage_payment + owner_non_pi_costs defaults in
  let renter_monthly_cost := median_rent defaults in
  let monthly_investment :=
    median_income defaults / 12 * savings_rate_of_income assumptions in
  let st :=
    fold_left
      (loop_body defaults mortgage_payment mortgage_rate_monthly
                 appreciation_monthly investment_monthly monthly_investment)
      (Builtins.range 1 (months + 1))
      {| balance := loan_amount defaults;
         home_value := property_value defaults;
         portfolio := 0;
         break_even := None;
         timeline := [] |} in
  Ok (ComparisonResult.mk
        defaults assumptions owner_monthly_cost renter_monthly_cost
        (match timeline st with
         | [] => Some 0
         | s :: tl => MonthlySnapshot.equity (last tl s)
         end)
        (match timeline st with
         | [] => Some 0
         | s :: tl => MonthlySnapshot.renter_portfolio (last tl s)
         end)
        (break_even st)
        (timeline st)).

End Pow.

(** One dollar, interest-free, over ten months. *)
Definition ten_month_loan : LocationFinancialDefaults :=
  {| cbsa := "31080";
     name := "Los Angeles-Long Beach-Anaheim, CA";
     median_income := 84000;
     median_rent := 2100;
     property_value := 375000;
     loan_amount := 1;
     interest_rate := 0;
     loan_term_months := 10;
     monthly_taxes := 400;
     monthly_insurance := 100;
     monthly_utilities := 250 |}.

(** [ScenarioAssumptions(horizon_years=1)]. *)
Definition one_year : ScenarioAssumptions :=
  {| horizon_years := 1;
     appreciation_rate := 0.03;
     investment_return := 0.05;
     savings_rate_of_income := 0.05 |}.

(** [ScenarioAssumptions()], the instance. *)
Definition the_default_assumptions : ScenarioAssumptions :=
  {| horizon_years := 30;
     appreciation_rate := 0.03;
     investment_return := 0.05;
     savings_rate_of_income := 0.05 |}.

End Binary64.

(** ** Vocabulary of the statements *)


(** The monthly rate as section 4.1 of the specification words it:
    [annual_rate_pct / 100 / 12] for a positive annual percentage, [0] for
    one that is zero or negative. *)
Definition derived_monthly_rate (annual_rate_pct r : R) : Prop :=
  (annual_rate_pct > 0 -> r = annual_rate_pct / 100 / 12) /\
  (annual_rate_pct <= 0 -> r = 0).

(** The invariant of the class: an instance is one its constructor let
    through. *)
Definition constructed (a : ScenarioAssumptions) : Prop :=
  __post_init__ a = Ok tt.

(** An argument [compare_scenarios] can be called with: [None] or an
    instance of [ScenarioAssumptions]. *)
Definition well_formed (assumptions : option ScenarioAssumptions) : Prop :=
  match assumptions with
  | Some a => constructed a
  | None => True
  end.

(** The locals of a run of [compare_scenarios] after its first [k] months,
    given the two monthly growth rates the setup computed. *)
Definition run (defaults : LocationFinancialDefaults)
    (assumptions : ScenarioAssumptions)
    (appreciation_monthly investment_monthly : R) (k : nat) : locals :=
  after defaults
        (monthly_mortgage_payment (loan_amount defaults)
           (interest_rate defaults) (loan_term_months defaults))
        (annual_to_monthly_rate (interest_rate defaults))
        appreciation_monthly investment_monthly
        (median_income defaults / 12 * savings_rate_of_income assumptions)
        k.

(** [1 + q + ... + q ^ (n - 1)]: what [n] payments of one dollar are worth
    at the last of them, with [q] the monthly growth factor of the debt. *)
Fixpoint annuity (q : R) (n : nat) : R :=
  match n with
  | O => 0
  | S n' => annuity q n' + q ^ n'
  end.

(** The number of iterations of the loop. *)
Definition months_of (assumptions : ScenarioAssumptions) : nat :=
  Z.to_nat (horizon_years assumptions * 12).

(** The snapshot of month [m] (1-based) in a timeline. *)
Definition snapshot_at (tl : list MonthlySnapshot.t) (m : Z)
    : option MonthlySnapshot.t :=
  if (m <? 1)%Z then None else nth_error tl (Z.to_nat (m - 1)).

(** The renter's portfolio has reached the owner's equity in this month. *)
Definition caught_up (s : MonthlySnapshot.t) : Prop :=
  exists p e,
    MonthlySnapshot.renter_portfolio s = Some p /\
    MonthlySnapshot.equity s = Some e /\ p >= e.

(** The renter's portfolio is still below the owner's equity. *)
Definition behind (s : MonthlySnapshot.t) : Prop :=
  exists p e,
    MonthlySnapshot.renter_portfolio s = Some p /\
    MonthlySnapshot.equity s = Some e /\ p < e.

(** No field of the snapshot is [None]. *)
Definition fully_populated (s : MonthlySnapshot.t) : Prop :=
  MonthlySnapshot.home_value s <> None /\
  MonthlySnapshot.equity s <> None /\
  MonthlySnapshot.loan_balance s <> None /\
  MonthlySnapshot.renter_portfolio s <> None.

(** The balance month [m] starts with: the loan amount, or the balance the
    month before ended with. *)
Definition balance_before (d : LocationFinancialDefaults)
    (tl : list MonthlySnapshot.t) (m : Z) : option R :=
  if (m =? 1)%Z then Some (loan_amount d)
  else match snapshot_at tl (m - 1) with
       | Some s => MonthlySnapshot.loan_balance s
       | None => None
       end.

(** The local variable [principal_payment] of a month of a run over [d]
    that starts with balance [b]. *)
Definition principal_payment (d : LocationFinancialDefaults)
    (b : R) (month : Z) : R :=
  fst (amortize d
         (monthly_mortgage_payment (loan_amount d) (interest_rate d)
            (loan_term_months d))
         (annual_to_monthly_rate (interest_rate d)) b month).

(** Inputs the examples run on. *)
Definition sample_defaults : LocationFinancialDefaults :=
  {| cbsa := "31080";
     name := "Los Angeles-Long Beach-Anaheim, CA";
     median_income := 84000;
     median_rent := 2100;
     property_value := 375000;
     loan_amount := 300000;
     interest_rate := 6;
     loan_term_months := 360;
     monthly_taxes := 400;
     monthly_insurance := 100;
     monthly_utilities := 250 |}.

(** A negative median income: the provider code passes on the figure the
    survey reports, whatever its sign. *)
Definition negative_income_defaults : LocationFinancialDefaults :=
  {| cbsa := "31080";
     name := "Los Angeles-Long Beach-Anaheim, CA";
     median_income := -666666666;
     median_rent := 2100;
     property_value := 375000;
     loan_amount := 300000;
     interest_rate := 6;
     loan_term_months := 360;
     monthly_taxes := 400;
     monthly_insurance := 100;
     monthly_utilities := 250 |}.

(** A negative loan amount. *)
Definition negative_loan_defaults : LocationFinancialDefaults :=
  {| cbsa := "31080";
     name := "Los Angeles-Long Beach-Anaheim, CA";
     median_income := 84000;
     median_rent := 2100;
     property_value := 375000;
     loan_amount := -1000;
     interest_rate := 6;
     loan_term_months := 360;
     monthly_taxes := 400;
     monthly_insurance := 100;
     monthly_utilities := 250 |}.

(** An interest-free loan over one year. *)
Definition interest_free_defaults : LocationFinancialDefaults :=
  {| cbsa := "31080";
     name := "Los Angeles-Long Beach-Anaheim, CA";
     median_income := 84000;
     median_rent := 2100;
     property_value := 375000;
     loan_amount := 1200;
     interest_rate := 0;
     loan_term_months := 12;
     monthly_taxes := 400;
     monthly_insurance := 100;
     monthly_utilities := 250 |}.

(** ** data_sources.py

    The two clients fetch over the network; what they do with a response is
    modelled from the point where the response is in hand: the decoded JSON
    of the census API, an array of arrays of strings and nulls, and the rows
    of the HMDA query.  A metrics dictionary is kept as its string-valued
    and its float-valued entries.  [float(value)] is a parameter,
    [None] where it raises [ValueError]. *)

Module DataSources.

(** What this module raises. *)
Inductive error : Type :=
| RuntimeError (msg : string)
| ValueError (msg : string).

(** The outcome of a call: [inl] what it raised, [inr] what it returned. *)
Definition outcome (A : Type) : Type := (error + A)%type.

Definition and_then {A B : Type} (m : outcome A) (k : A -> outcome B)
    : outcome B :=
  match m with
  | inl e => inl e
  | inr a => k a
  end.

(** A JSON string or [null]; a Python [Optional[str]]. *)
Definition cell : Type := option string.

Definition cell_is (c : cell) (s : string) : bool :=
  match c with
  | Some s' => String.eqb s' s
  | None => false
  end.

(** [dict.get] on a dict kept as the list of its assignments, in order:
    the last assignment to the key counts. *)
Definition dict_get {K V : Type} (is_key : K -> bool) (d : list (K * V))
    : option V :=
  fold_left (fun found kv => if is_key (fst kv) then Some (snd kv) else found)
            d None.

(** [row.get(column)] on [row = dict(zip(header, values))]: [None] for a
    column that is missing as for one that is [null]. *)
Definition row_get (header values : list cell) (column : string) : cell :=
  match dict_get (fun k => cell_is k column) (combine header values) with
  | Some v => v
  | None => None
  end.

(** A metrics dictionary. *)
Record metrics : Type := {
  strings : list (string * cell);
  floats : list (string * R)
}.

Definition get_string (m : metrics) (key : string) : cell :=
  match dict_get (fun k => String.eqb k key) (strings m) with
  | Some v => v
  | None => None
  end.

Definition get_float (m : metrics) (key : string) (default : R) : R :=
  match dict_get (fun k => String.eqb k key) (floats m) with
  | Some x => x
  | None => default
  end.

(** [CensusACSClient.ACS_METRICS]: key, column, annual divisor. *)
Definition ACS_METRICS : list (string * (string * R)) :=
  [ ("median_income", ("B19013_001E", 1));
    ("median_rent", ("B25064_001E", 1));
    ("real_estate_taxes", ("B25103_001E", 12));
    ("home_insurance", ("B25141_001E", 12));
    ("electricity", ("B25132_001E", 1));
    ("gas", ("B25133_001E", 1));
    ("water_sewer", ("B25134_001E", 12));
    ("other_fuel", ("B25135_001E", 12)) ]%string.

(** A row of the HMDA query. *)
Record HmdaRow : Type := {
  row_cbsa : string;
  row_cbsa_name : cell;
  median_property_value : option R;
  median_loan_amount : option R;
  avg_interest_rate : option R
}.

(** [x or 0.0] for an optional float. *)
Definition or_zero (x : option R) : R :=
  match x with
  | Some v => if v =? 0 then 0 else v
  | None => 0
  end.

(** The truth value of an optional string. *)
Definition nonempty (c : cell) : option string :=
  match c with
  | Some s => if String.eqb s "" then None else Some s
  | None => None
  end.

Section Float.

(** [float(value)] on a string. *)
Variable parse_float : string -> option R.

Definition _to_float (value : cell) : outcome (option R) :=
  match value with
  | None => inr None
  | Some s =>
      if String.eqb s "" || String.eqb s "null" then inr None
      else match parse_float s with
           | Some x => inr (Some x)
           | None =>
               inl (ValueError
                      ("Could not convert ACS value '" ++ s ++ "' to float"))
           end
  end%string.

(** The loop of [fetch_housing_metrics] over [ACS_METRICS.items()]. *)
Fixpoint metrics_loop (header values : list cell)
    (specs : list (string * (string * R))) (floats : list (string * R))
    : outcome (list (string * R)) :=
  match specs with
  | [] => inr floats
  | (key, (column, annual_divisor)) :: specs' =>
      and_then (_to_float (row_get header values column)) (fun raw_value =>
      let divisor := if annual_divisor =? 0 then 1 else annual_divisor in
      metrics_loop header values specs'
        (floats ++ [(key, match raw_value with
                          | Some x => x / divisor
                          | None => 0
                          end)]))
  end.

(** [CensusACSClient.fetch_housing_metrics], from [data = response.json()]
    on. *)
Definition fetch_housing_metrics (data : list (list cell)) (cbsa : string)
    : outcome metrics :=
  match data with
  | header :: values :: _ =>
      let name :=
        match dict_get (fun k => cell_is k "NAME") (combine header values)
        with
        | Some v => v
        | None => Some ("CBSA " ++ cbsa)%string
        end in
      and_then (metrics_loop header values ACS_METRICS []) (fun floats =>
      inr {| strings := [("name"%string, name)]; floats := floats |})
  | _ =>
      inl (RuntimeError ("ACS query returned no rows for CBSA " ++ cbsa))
  end%string.

(** [HMDAClient.fetch_cbsa_summary], from [result = list(query_job.result())]
    on. *)
Definition fetch_cbsa_summary (table : string) (result : list HmdaRow)
    (cbsa : string) : outcome metrics :=
  match result with
  | [] =>
      inl (RuntimeError
             ("No HMDA results for CBSA " ++ cbsa ++ " in " ++ table))
  | row :: _ =>
      inr {| strings := [("cbsa", Some (row_cbsa row));
                         ("name", row_cbsa_name row)];
             floats := [("property_value",
                         or_zero (median_property_value row));
                        ("loan_amount", or_zero (median_loan_amount row));
                        ("interest_rate",
                         or_zero (avg_interest_rate row))] |}
  end%string.

(** [LocationDataAssembler.build_defaults], from the two metrics
    dictionaries on. *)
Definition defaults_of_metrics (acs_metrics hmda_metrics : metrics)
    (cbsa : string) (loan_term_months : Z) : LocationFinancialDefaults :=
  let name :=
    match nonempty (get_string hmda_metrics "name") with
    | Some s => s
    | None =>
        match nonempty (get_string acs_metrics "name") with
        | Some s => s
        | None => ("CBSA " ++ cbsa)%string
        end
    end in
  let monthly_utilities :=
    get_float acs_metrics "electricity" 0
    + get_float acs_metrics "gas" 0
    + get_float acs_metrics "water_sewer" 0
    + get_float acs_metrics "other_fuel" 0 in
  {| cbsa := cbsa;
     name := name;
     median_income := get_float acs_metrics "median_income" 0;
     median_rent := get_float acs_metrics "median_rent" 0;
     property_value := get_float hmda_metrics "property_value" 0;
     loan_amount := get_float hmda_metrics "loan_amount" 0;
     interest_rate := get_float hmda_metrics "interest_rate" 0;
     loan_term_months := loan_term_months;
     monthly_taxes := get_float acs_metrics "real_estate_taxes" 0;
     monthly_insurance := get_float acs_metrics "home_insurance" 0;
     monthly_utilities := monthly_utilities |}.

(** [LocationDataAssembler.build_defaults]: the census first, then HMDA. *)
Definition build_defaults (table : string)
    (acs_response : list (list cell)) (hmda_result : list HmdaRow)
    (cbsa : string) (loan_term_months : Z)
    : outcome LocationFinancialDefaults :=
  and_then (fetch_housing_metrics acs_response cbsa) (fun acs_metrics =>
  and_then (fetch_cbsa_summary table hmda_result cbsa) (fun hmda_metrics =>
  inr (defaults_of_metrics acs_metrics hmda_metrics cbsa loan_term_months))).

(** What a census figure contributes: the number in its cell, [0] for a
    cell that is missing, [null], empty or ["null"]. *)
Definition figure (header values : list cell) (column : string) : R :=
  match row_get header values column with
  | Some s =>
      if String.eqb s "" || String.eqb s "null" then 0
      else match parse_float s with
           | Some x => x
           | None => 0
           end
  | None => 0
  end%string.

(** The cell of a census figure can be converted. *)
Definition convertible (header values : list cell) (column : string)
    : Prop :=
  match row_get header values column with
  | Some s =>
      s = ""%string \/ s = "null"%string \/ parse_float s <> None
  | None => True
  end.

(** Every cell [ACS_METRICS] reads can be converted. *)
Definition all_convertible (header values : list cell) : Prop :=
  Forall (fun spec => convertible header values (fst (snd spec)))
         ACS_METRICS.

End Float.

End DataSources.

(** ** Further code: [better_option] and the caller's test *)

(** [ComparisonResult.better_option].  The two terminal values are options
    here; comparing a [None] raises in Python, which is [None] here. *)
Definition better_option (self : ComparisonResult.t) : option string :=
  match ComparisonResult.owner_equity self,
        ComparisonResult.renter_portfolio self with
  | Some owner_equity, Some renter_portfolio =>
      Some (if owner_equity >? renter_portfolio then "owning"
            else if renter_portfolio >? owner_equity then "renting"
            else "tie")%string
  | _, _ => None
  end.

(** [if result.break_even_month:] of [cli.run]: the truth value of an
    [Optional[int]]. *)
Definition truthy (o : option Z) : bool :=
  match o with
  | Some m => negb (m =? 0)%Z
  | None => false
  end.

(** [ScenarioAssumptions()], the instance. *)
Definition the_default_assumptions : ScenarioAssumptions :=
  {| horizon_years := 30;
     appreciation_rate := 0.03;
     investment_return := 0.05;
     savings_rate_of_income := 0.05 |}.

(** One year of falling prices. *)
Definition falling_prices : ScenarioAssumptions :=
  {| horizon_years := 1;
     appreciation_rate := -0.02;
     investment_return := 0.05;
     savings_rate_of_income := 0.05 |}.

(** An instance whose horizon was set to zero after construction. *)
Definition zero_horizon : ScenarioAssumptions :=
  {| horizon_years := 0;
     appreciation_rate := 0.03;
     investment_return := 0.05;
     savings_rate_of_income := 0.05 |}.

(** A renter who saves nothing. *)
Definition no_savings : ScenarioAssumptions :=
  {| horizon_years := 30;
     appreciation_rate := 0.03;
     investment_return := 0.05;
     savings_rate_of_income := 0 |}.

(** The result with the two terminal values exchanged. *)
Definition exchanged (r : ComparisonResult.t) : ComparisonResult.t :=
  ComparisonResult.mk
    (ComparisonResult.defaults r) (ComparisonResult.assumptions r)
    (ComparisonResult.owner_monthly_cost r)
    (ComparisonResult.renter_monthly_cost r)
    (ComparisonResult.renter_portfolio r) (ComparisonResult.owner_equity r)
    (ComparisonResult.break_even_month r) (ComparisonResult.timeline r).

(** A stand-in for [**] in examples, right where the base is [1]:
    [1 ** y = 1]. *)
Definition pow_at_one (x y : float) : float := x.

(** A stand-in for [float(value)] in examples: the number a string of
    decimal digits writes, as [float] gives it; a [ValueError] on every
    other string, where [float] accepts more. *)
Fixpoint digits_value (s : string) (acc : Z) : option Z :=
  match s with
  | EmptyString => Some acc
  | String c s' =>
      let n := Z.of_nat (Ascii.nat_of_ascii c) in
      if ((48 <=? n) && (n <=? 57))%Z
      then digits_value s' (10 * acc + (n - 48))%Z
      else None
  end.

Definition float_of_digits (s : string) : option R :=
  match s with
  | EmptyString => None
  | String _ _ => option_map IZR (digits_value s 0)
  end.

(** A census response: the header, one row of values. *)
Definition sample_response : list (list DataSources.cell) :=
  [ [Some "NAME"; Some "B19013_001E"; Some "B25064_001E";
     Some "B25103_001E"; Some "B25132_001E"; Some "B25133_001E";
     Some "B25134_001E"; Some "B25135_001E"; Some "B25141_001E";
     Some "metropolitan statistical area/micropolitan statistical area"];
    [Some "Los Angeles-Long Beach-Anaheim, CA Metro Area"; Some "84000";
     Some "2100"; Some "4800"; Some "150"; None; Some "720"; Some "";
     Some "1200"; Some "31080"] ]%string.

(** A census response with a cell that is not a number. *)
Definition garbled_response : list (list DataSources.cell) :=
  [ [Some "NAME"; Some "B19013_001E"];
    [Some "Los Angeles-Long Beach-Anaheim, CA Metro Area"; Some "N/A"] ]%string.

(** A row of the HMDA query, the interest rate [NULL]. *)
Definition sample_row : DataSources.HmdaRow :=
  {| DataSources.row_cbsa := "31080";
     DataSources.row_cbsa_name := Some "Los Angeles-Long Beach-Anaheim, CA"%string;
     DataSources.median_property_value := Some 375000;
     DataSources.median_loan_amount := Some 300000;
     DataSources.avg_interest_rate := None |}.

(** * Proofs *)

(** ** Comparisons and builtins *)

Lemma Rleb_spec (x y : R) : reflect (x <= y) (x <=? y).
Proof. unfold Rleb. destruct (Rle_dec x y); constructor; assumption. Qed.

Lemma Rltb_spec (x y : R) : reflect (x < y) (x <? y).
Proof. unfold Rltb. destruct (Rlt_dec x y); constructor; assumption. Qed.

Lemma Rgeb_spec (x y : R) : reflect (x >= y) (x >=? y).
Proof. unfold Rgeb. destruct (Rge_dec x y); constructor; assumption. Qed.

Lemma Rgtb_spec (x y : R) : reflect (x > y) (x >? y).
Proof. unfold Rgtb. destruct (Rgt_dec x y); constructor; assumption. Qed.

Lemma Reqb_spec (x y : R) : reflect (x = y) (x =? y).
Proof. unfold Reqb. destruct (Req_dec_T x y); constructor; assumption. Qed.

(** Case split on every float comparison in sight, closing the branches
    linear arithmetic refutes. *)
Ltac cmp_cases :=
  repeat match goal with
  | |- context [Rleb ?x ?y] => destruct (Rleb_spec x y)
  | |- context [Rltb ?x ?y] => destruct (Rltb_spec x y)
  | |- context [Rgeb ?x ?y] => destruct (Rgeb_spec x y)
  | |- context [Rgtb ?x ?y] => destruct (Rgtb_spec x y)
  | |- context [Reqb ?x ?y] => destruct (Reqb_spec x y)
  | H : context [Rleb ?x ?y] |- _ => destruct (Rleb_spec x y)
  | H : context [Rltb ?x ?y] |- _ => destruct (Rltb_spec x y)
  | H : context [Rgeb ?x ?y] |- _ => destruct (Rgeb_spec x y)
  | H : context [Rgtb ?x ?y] |- _ => destruct (Rgtb_spec x y)
  | H : context [Reqb ?x ?y] |- _ => destruct (Reqb_spec x y)
  end; try lra.

Lemma max_Rmax (a b : R) : Builtins.max a b = Rmax a b.
Proof.
  unfold Builtins.max, Rmax.
  destruct (Rle_dec a b); cmp_cases.
Qed.

Lemma min_Rmin (a b : R) : Builtins.min a b = Rmin a b.
Proof.
  unfold Builtins.min, Rmin.
  destruct (Rle_dec a b); cmp_cases.
Qed.

Lemma max_zero_nonneg (a : R) : 0 <= Builtins.max a 0.
Proof. unfold Builtins.max. cmp_cases. Qed.

Lemma max_zero_id (a : R) : 0 <= a -> Builtins.max a 0 = a.
Proof. intros H. unfold Builtins.max. cmp_cases. Qed.

Lemma min_left (a b : R) : a <= b -> Builtins.min a b = a.
Proof. intros H. unfold Builtins.min. cmp_cases. Qed.

Lemma range_to_nat (months : Z) :
  Builtins.range 1 (months + 1) =
  map (fun i => (1 + Z.of_nat i)%Z) (seq 0 (Z.to_nat months)).
Proof.
  unfold Builtins.range. f_equal. f_equal. lia.
Qed.

(** ** Rate conversions *)

Lemma annual_to_monthly_rate_derived (annual_rate_pct : R) :
  derived_monthly_rate annual_rate_pct (annual_to_monthly_rate annual_rate_pct).
Proof.
  unfold derived_monthly_rate, annual_to_monthly_rate.
  split; intros H; cmp_cases.
Qed.


Lemma annual_to_monthly_rate_nonneg (annual_rate_pct : R) :
  0 <= annual_to_monthly_rate annual_rate_pct.
Proof. unfold annual_to_monthly_rate. cmp_cases. Qed.

Lemma annual_to_monthly_rate_zero : annual_to_monthly_rate 0 = 0.
Proof. unfold annual_to_monthly_rate. cmp_cases. Qed.

Lemma annual_to_monthly_growth_Ok (annual_rate g : R) :
  annual_to_monthly_growth annual_rate = Ok g <->
  -1 < annual_rate /\ g = Rpower (1 + annual_rate) (1 / 12) - 1.
Proof.
  unfold annual_to_monthly_growth.
  destruct (Rleb_spec annual_rate (-1)); split.
  - discriminate.
  - intros [H _]. lra.
  - intros H. injection H as <-. split; [lra | reflexivity].
  - intros [_ ->]. reflexivity.
Qed.

Lemma annual_to_monthly_growth_factor_pos (annual_rate g : R) :
  annual_to_monthly_growth annual_rate = Ok g -> 0 < 1 + g.
Proof.
  intros H. apply annual_to_monthly_growth_Ok in H as [_ ->].
  unfold Rpower.
  pose proof (exp_pos (1 / 12 * ln (1 + annual_rate))). lra.
Qed.

Lemma annual_to_monthly_growth_nonneg (annual_rate g : R) :
  0 <= annual_rate ->
  annual_to_monthly_growth annual_rate = Ok g -> 0 <= g.
Proof.
  intros Hx H. apply annual_to_monthly_growth_Ok in H as [_ ->].
  assert (H1 : Rpower 1 (1 / 12) = 1).
  { unfold Rpower. rewrite ln_1, Rmult_0_r. apply exp_0. }
  assert (Hle : Rpower 1 (1 / 12) <= Rpower (1 + annual_rate) (1 / 12)).
  { apply Rle_Rpower_l; lra. }
  lra.
Qed.

(** ** The constructor of [ScenarioAssumptions] *)

Lemma post_init_Ok (a : ScenarioAssumptions) :
  constructed a <->
  (0 < horizon_years a)%Z /\ 0 <= savings_rate_of_income a <= 1.
Proof.
  unfold constructed, __post_init__.
  destruct (Z.leb_spec (horizon_years a) 0);
    destruct (Rleb_spec 0 (savings_rate_of_income a));
    destruct (Rleb_spec (savings_rate_of_income a) 1); cbn;
    (split;
     [ intros E; try discriminate; repeat split; (lia || lra)
     | intros [Hh [Hs0 Hs1]]; try reflexivity; (lia || lra) ]).
Qed.

Lemma months_of_constructed (a : ScenarioAssumptions) :
  constructed a -> Z.of_nat (months_of a) = (horizon_years a * 12)%Z.
Proof.
  intros H. apply post_init_Ok in H as [Hh _]. unfold months_of. lia.
Qed.

Lemma default_ScenarioAssumptions_Ok :
  default_ScenarioAssumptions =
  Ok {| horizon_years := 30; appreciation_rate := 0.03;
        investment_return := 0.05; savings_rate_of_income := 0.05 |}.
Proof.
  unfold default_ScenarioAssumptions, new_ScenarioAssumptions.
  match goal with
  | |- bind (__post_init__ ?a) _ = _ =>
      assert (H : constructed a)
        by (apply post_init_Ok; cbn; split; [lia | lra])
  end.
  unfold constructed in H. rewrite H. reflexivity.
Qed.

Lemma assumptions_or_default_Ok
    (assumptions : option ScenarioAssumptions) (a : ScenarioAssumptions) :
  well_formed assumptions ->
  assumptions_or_default assumptions = Ok a ->
  constructed a.
Proof.
  destruct assumptions as [x |]; cbn.
  - intros H E. injection E as <-. exact H.
  - intros _. rewrite default_ScenarioAssumptions_Ok. intros E.
    injection E as <-. apply post_init_Ok. cbn. split; [lia | lra].
Qed.


(** ** The loop, month by month *)

Section LoopFacts.

Variable defaults : LocationFinancialDefaults.
Variables mortgage_payment mortgage_rate_monthly : R.
Variables appreciation_monthly investment_monthly : R.
Variable monthly_investment : R.

Local Abbreviation body :=
  (loop_body defaults mortgage_payment mortgage_rate_monthly
             appreciation_monthly investment_monthly monthly_investment).
Local Abbreviation state :=
  (after defaults mortgage_payment mortgage_rate_monthly
         appreciation_monthly investment_monthly monthly_investment).
Local Abbreviation pay :=
  (amortize defaults mortgage_payment mortgage_rate_monthly).

Lemma loop_after (months : Z) :
  loop defaults mortgage_payment mortgage_rate_monthly appreciation_monthly
       investment_monthly monthly_investment months =
  state (Z.to_nat months).
Proof.
  unfold loop. rewrite range_to_nat.
  induction (Z.to_nat months) as [| n IH]; [reflexivity |].
  rewrite seq_S, map_app, fold_left_app, IH. reflexivity.
Qed.

Lemma body_timeline (st : locals) (month : Z) :
  timeline (body st month) = timeline st ++ [snapshot_of month (body st month)].
Proof. reflexivity. Qed.

Lemma timeline_after (k : nat) :
  timeline (state k) =
  map (fun i => snapshot_of (1 + Z.of_nat i) (state (S i))) (seq 0 k).
Proof.
  induction k as [| k IH]; [reflexivity |].
  rewrite seq_S, map_app. cbn [after]. rewrite body_timeline, IH.
  reflexivity.
Qed.

Lemma length_timeline_after (k : nat) : List.length (timeline (state k)) = k.
Proof. rewrite timeline_after, length_map, length_seq. reflexivity. Qed.

Lemma nth_error_timeline_after (k i : nat) (s : MonthlySnapshot.t) :
  nth_error (timeline (state k)) i = Some s <->
  (i < k)%nat /\ s = snapshot_of (1 + Z.of_nat i) (state (S i)).
Proof.
  rewrite timeline_after, nth_error_map. split.
  - intros H. destruct (nth_error (seq 0 k) i) as [j |] eqn:E; [| discriminate].
    assert (Hi : (i < k)%nat).
    { rewrite <- (length_seq k 0). apply nth_error_Some. congruence. }
    rewrite nth_error_seq in E.
    destruct (Nat.ltb_spec i k); [| lia].
    injection E as <-. injection H as <-. auto.
  - intros [Hi ->]. rewrite nth_error_seq.
    destruct (Nat.ltb_spec i k); [reflexivity | lia].
Qed.

(** *** Break-even detection *)

Lemma body_break_even (st : locals) (month : Z) :
  break_even (body st month) =
  match break_even st with
  | None =>
      if portfolio (body st month) >=? equity_of (body st month)
      then Some month else None
  | Some m => Some m
  end.
Proof. reflexivity. Qed.

Lemma body_break_even_kept (st : locals) (month m : Z) :
  break_even st = Some m -> break_even (body st month) = Some m.
Proof. intros H. rewrite body_break_even, H. reflexivity. Qed.

Lemma after_break_even_kept (k k' : nat) (m : Z) :
  (k <= k')%nat ->
  break_even (state k) = Some m -> break_even (state k') = Some m.
Proof.
  intros Hle H. induction Hle as [| k' Hle IH]; [assumption |].
  cbn [after]. now apply body_break_even_kept.
Qed.

(** [break_even] is the month of the first crossing among the months
    simulated so far, and is unset exactly when there was none. *)
Lemma after_break_even (k : nat) :
  match break_even (state k) with
  | Some m =>
      exists j, (j < k)%nat /\ m = (1 + Z.of_nat j)%Z /\
        portfolio (state (S j)) >= equity_of (state (S j)) /\
        forall i, (i < j)%nat ->
          portfolio (state (S i)) < equity_of (state (S i))
  | None =>
      forall i, (i < k)%nat ->
        portfolio (state (S i)) < equity_of (state (S i))
  end.
Proof.
  induction k as [| k IH].
  - cbn. intros i Hi. lia.
  - change (state (S k)) with (body (state k) (1 + Z.of_nat k)) at 1.
    rewrite body_break_even.
    destruct (break_even (state k)) as [m |].
    + destruct IH as (j & Hj & Hm & Hcross & Hbefore).
      exists j. repeat split; auto.
    + change (body (state k) (1 + Z.of_nat k)) with (state (S k)).
      destruct (Rgeb_spec (portfolio (state (S k))) (equity_of (state (S k))))
        as [Hge | Hlt].
      * exists k. repeat split; auto.
      * intros i Hi. assert (Hcase : (i < k)%nat \/ i = k) by lia.
        destruct Hcase as [Hi' | ->]; [auto | lra].
Qed.

(** *** The loan balance *)

Lemma amortize_balance_le (b : R) (month : Z) : snd (pay b month) <= b.
Proof.
  unfold amortize.
  destruct (Rgtb_spec b 0); cbn [andb snd]; [| lra].
  destruct (Rgtb_spec mortgage_payment 0); cbn [andb snd]; [| lra].
  destruct (month <=? loan_term_months defaults)%Z; cbn [snd]; [| lra].
  unfold Builtins.max, Builtins.min. cmp_cases.
Qed.

Lemma amortize_balance_nonneg (b : R) (month : Z) :
  0 <= b -> 0 <= snd (pay b month).
Proof.
  intros Hb. unfold amortize.
  destruct ((b >? 0) && (mortgage_payment >? 0)
            && (month <=? loan_term_months defaults)%Z); cbn [snd];
    [apply max_zero_nonneg | assumption].
Qed.

Lemma after_balance_step (k : nat) :
  balance (state (S k)) = snd (pay (balance (state k)) (1 + Z.of_nat k)).
Proof. reflexivity. Qed.

Lemma after_balance_le (k : nat) :
  balance (state (S k)) <= balance (state k).
Proof. rewrite after_balance_step. apply amortize_balance_le. Qed.

Lemma after_balance_le_loan (k : nat) :
  balance (state k) <= loan_amount defaults.
Proof.
  induction k as [| k IH]; [cbn; lra |].
  pose proof (after_balance_le k). lra.
Qed.

Lemma after_balance_mono (k k' : nat) :
  (k <= k')%nat -> balance (state k') <= balance (state k).
Proof.
  intros Hle. induction Hle as [| k' Hle IH]; [lra |].
  pose proof (after_balance_le k'). lra.
Qed.

Lemma after_balance_nonneg (k : nat) :
  0 <= loan_amount defaults -> 0 <= balance (state k).
Proof.
  intros H. induction k as [| k IH]; [exact H |].
  rewrite after_balance_step. now apply amortize_balance_nonneg.
Qed.

(** A balance that is not positive is never touched. *)
Lemma after_balance_frozen (k : nat) :
  loan_amount defaults <= 0 -> balance (state k) = loan_amount defaults.
Proof.
  intros H. induction k as [| k IH]; [reflexivity |].
  rewrite after_balance_step, IH. unfold amortize.
  destruct (Rgtb_spec (loan_amount defaults) 0); [lra | reflexivity].
Qed.

(** *** Equity, the renter's portfolio and the home value *)

Lemma equity_of_nonneg (st : locals) : 0 <= equity_of st.
Proof. apply max_zero_nonneg. Qed.

Lemma after_portfolio_step (k : nat) :
  portfolio (state (S k)) =
  portfolio (state k) * (1 + investment_monthly) + monthly_investment.
Proof. reflexivity. Qed.

Lemma after_portfolio_nonneg (k : nat) :
  0 <= 1 + investment_monthly -> 0 <= monthly_investment ->
  0 <= portfolio (state k).
Proof.
  intros Hg Hc. induction k as [| k IH]; [cbn; lra |].
  rewrite after_portfolio_step.
  pose proof (Rmult_le_pos _ _ IH Hg). lra.
Qed.

Lemma after_home_value_step (k : nat) :
  home_value (state (S k)) = home_value (state k) * (1 + appreciation_monthly).
Proof. reflexivity. Qed.

Lemma after_home_value_ge (k : nat) :
  0 <= property_value defaults -> 0 <= appreciation_monthly ->
  property_value defaults <= home_value (state k) /\
  home_value (state k) <= home_value (state (S k)).
Proof.
  intros Hv Hg. induction k as [| k [IH1 IH2]].
  - cbn. split; [lra | nra].
  - split; [lra |].
    rewrite (after_home_value_step (S k)). nra.
Qed.

End LoopFacts.

(** ** The amortization schedule *)

Lemma annuity_unfold (q : R) (n : nat) :
  annuity q (S n) = 1 + q * annuity q n.
Proof.
  induction n as [| n IH]; [cbn; ring |].
  change (annuity q (S (S n))) with (annuity q (S n) + q ^ S n).
  rewrite IH at 1.
  change (annuity q (S n)) with (annuity q n + q ^ n).
  cbn [pow]. ring.
Qed.

Lemma annuity_rate (q : R) (n : nat) : (q - 1) * annuity q n = q ^ n - 1.
Proof.
  induction n as [| n IH]; [cbn; ring |].
  cbn [annuity pow]. lra.
Qed.

Lemma annuity_one (n : nat) : annuity 1 n = INR n.
Proof.
  induction n as [| n IH]; [reflexivity |].
  rewrite S_INR. cbn [annuity]. rewrite IH, pow1. reflexivity.
Qed.

Lemma annuity_lt (q : R) (k n : nat) :
  0 < q -> (k < n)%nat -> annuity q k < annuity q n.
Proof.
  intros Hq Hlt. induction Hlt as [| n Hlt IH]; cbn [annuity].
  - pose proof (pow_lt q k Hq). lra.
  - pose proof (pow_lt q n Hq). lra.
Qed.

Lemma annuity_le (q : R) (k n : nat) :
  0 < q -> (k <= n)%nat -> annuity q k <= annuity q n.
Proof.
  intros Hq Hle. destruct (Nat.eq_dec k n) as [-> | Hne]; [lra |].
  apply Rlt_le, annuity_lt; [assumption | lia].
Qed.

Lemma annuity_pos (q : R) (n : nat) :
  0 < q -> (0 < n)%nat -> 0 < annuity q n.
Proof. intros Hq Hn. apply (annuity_lt q 0 n Hq Hn). Qed.

(** The level payment is the one that [n] months of compounding exactly
    pay back: [payment * (1 + q + ... + q^(n-1)) = principal * q^n]. *)
Lemma monthly_mortgage_payment_annuity
    (principal annual_rate_pct : R) (term_months : Z) :
  0 < principal -> (0 < term_months)%Z ->
  let q := 1 + annual_to_monthly_rate annual_rate_pct in
  let n := Z.to_nat term_months in
  monthly_mortgage_payment principal annual_rate_pct term_months =
  principal * q ^ n / annuity q n.
Proof.
  intros HP Hn q n.
  assert (Hr : 0 <= annual_to_monthly_rate annual_rate_pct)
    by apply annual_to_monthly_rate_nonneg.
  assert (Hn' : (0 < n)%nat) by (subst n; lia).
  assert (HS : 0 < annuity q n) by (apply annuity_pos; subst q; [lra | lia]).
  unfold monthly_mortgage_payment.
  destruct (Rleb_spec principal 0); [lra |].
  destruct (Z.leb_spec term_months 0); [lia |]. cbn [orb].
  destruct (Reqb_spec (annual_to_monthly_rate annual_rate_pct) 0) as [E | E].
  - assert (Hq : q = 1) by (subst q; lra).
    rewrite Hq, annuity_one, pow1. subst n.
    rewrite INR_IZR_INZ, Z2Nat.id by lia. field.
    apply not_0_IZR. lia.
  - fold q.
    replace (- term_months)%Z with (- Z.of_nat n)%Z by (subst n; lia).
    rewrite powerRZ_neg', <- pow_powerRZ.
    assert (HX : 1 < q ^ n) by (apply Rlt_pow_R1; subst q; [lra | lia]).
    pose proof (annuity_rate q n) as HR.
    replace (q - 1) with (annual_to_monthly_rate annual_rate_pct) in HR
      by (subst q; ring).
    assert (HSn : annuity q n =
                  (q ^ n - 1) / annual_to_monthly_rate annual_rate_pct).
    { rewrite <- HR. field. lra. }
    rewrite HSn. field. repeat split; lra.
Qed.


Section Amortization.

Variable defaults : LocationFinancialDefaults.
Variables appreciation_monthly investment_monthly monthly_investment : R.

Hypothesis loan_positive : 0 < loan_amount defaults.
Hypothesis term_positive : (0 < loan_term_months defaults)%Z.

Local Abbreviation P := (loan_amount defaults).
Local Abbreviation r := (annual_to_monthly_rate (interest_rate defaults)).
Local Abbreviation q := (1 + r).
Local Abbreviation n := (Z.to_nat (loan_term_months defaults)).
Local Abbreviation payment :=
  (monthly_mortgage_payment (loan_amount defaults) (interest_rate defaults)
                            (loan_term_months defaults)).
Local Abbreviation state :=
  (after defaults payment r appreciation_monthly investment_monthly
         monthly_investment).

Lemma schedule_annuity_pos : 0 < annuity q n.
Proof.
  pose proof (annual_to_monthly_rate_nonneg (interest_rate defaults)).
  apply annuity_pos; [lra | lia].
Qed.

(** One month on schedule: a balance of
    [P * (S n - S k) / S n] (with [S] the annuity sums) pays [P * q^k / S n]
    of principal in month [k + 1] and leaves [P * (S n - S (k+1)) / S n]. *)
Lemma amortize_on_schedule (b : R) (k : nat) :
  (k < n)%nat ->
  b = P * (annuity q n - annuity q k) / annuity q n ->
  amortize defaults payment r b (1 + Z.of_nat k) =
  (P * q ^ k / annuity q n,
   P * (annuity q n - annuity q (S k)) / annuity q n).
Proof.
  intros Hk Hb.
  pose proof (annual_to_monthly_rate_nonneg (interest_rate defaults)) as Hr.
  pose proof schedule_annuity_pos as HS.
  assert (Hq : 0 < q) by lra.
  pose proof (annuity_lt q k n Hq Hk) as HSk.
  assert (HSk' : annuity q (S k) <= annuity q n)
    by (apply annuity_le; [assumption | lia]).
  pose proof (pow_lt q k Hq) as Hqk.
  pose proof (pow_lt q n Hq) as Hqn.
  assert (Hbpos : b > 0).
  { rewrite Hb. apply Rdiv_lt_0_compat; [| assumption].
    apply Rmult_lt_0_compat; lra. }
  assert (Hpay : payment = P * q ^ n / annuity q n)
    by (apply monthly_mortgage_payment_annuity; assumption).
  assert (Hpaypos : payment > 0).
  { rewrite Hpay. apply Rdiv_lt_0_compat; [| assumption].
    apply Rmult_lt_0_compat; lra. }
  assert (Hportion : payment - b * r = P * q ^ k / annuity q n).
  { pose proof (annuity_rate q n) as Hn. pose proof (annuity_rate q k) as Hk'.
    replace (q - 1) with r in Hn, Hk' by ring.
    rewrite Hpay, Hb.
    replace (P * q ^ n / annuity q n -
             P * (annuity q n - annuity q k) / annuity q n * r)
      with (P * (q ^ n - (r * annuity q n - r * annuity q k)) / annuity q n)
      by (field; lra).
    rewrite Hn, Hk'. f_equal. ring. }
  assert (Hportionpos : 0 < P * q ^ k / annuity q n).
  { apply Rdiv_lt_0_compat; [| assumption].
    apply Rmult_lt_0_compat; lra. }
  assert (Hrest : b - P * q ^ k / annuity q n =
                  P * (annuity q n - annuity q (S k)) / annuity q n).
  { rewrite Hb. cbn [annuity]. field. lra. }
  assert (Hrestpos : 0 <= P * (annuity q n - annuity q (S k)) / annuity q n).
  { apply Rmult_le_pos; [apply Rmult_le_pos; lra |].
    apply Rlt_le, Rinv_0_lt_compat. assumption. }
  unfold amortize.
  destruct (Rgtb_spec b 0) as [_ | C]; [| lra].
  destruct (Rgtb_spec payment 0) as [_ | C]; [| lra].
  destruct (Z.leb_spec (1 + Z.of_nat k) (loan_term_months defaults));
    [| lia].
  cbn [andb]. rewrite Hportion.
  rewrite (max_zero_id (P * q ^ k / annuity q n)) by lra.
  rewrite min_left by lra.
  rewrite Hrest, max_zero_id by assumption.
  reflexivity.
Qed.

(** The balance follows the schedule through the whole term. *)
Lemma after_balance_schedule (k : nat) :
  (k <= n)%nat ->
  balance (state k) = P * (annuity q n - annuity q k) / annuity q n.
Proof.
  pose proof schedule_annuity_pos as HS.
  induction k as [| k IH]; intros Hk.
  - cbn. field. lra.
  - rewrite after_balance_step.
    rewrite (amortize_on_schedule _ k); [reflexivity | lia | apply IH; lia].
Qed.

Lemma after_principal_payment (k : nat) :
  (k < n)%nat ->
  fst (amortize defaults payment r (balance (state k)) (1 + Z.of_nat k)) =
  P * q ^ k / annuity q n.
Proof.
  intros Hk.
  rewrite (amortize_on_schedule _ k);
    [reflexivity | assumption | apply after_balance_schedule; lia].
Qed.

(** The loan is paid off with the payment of the last month of the term,
    and stays so. *)
Lemma after_balance_paid_off (k : nat) :
  (n <= k)%nat -> balance (state k) = 0.
Proof.
  intros Hk.
  assert (H0 : balance (state n) = 0).
  { rewrite after_balance_schedule by lia.
    unfold Rdiv. rewrite Rminus_diag. ring. }
  pose proof (after_balance_mono defaults payment r appreciation_monthly
                investment_monthly monthly_investment n k Hk) as Hle.
  pose proof (after_balance_nonneg defaults payment r appreciation_monthly
                investment_monthly monthly_investment k) as Hge.
  apply Rle_antisym; lra.
Qed.

(** Through the term the balance goes down by exactly the principal paid. *)
Lemma after_balance_minus_principal (k : nat) :
  (k < n)%nat ->
  balance (state (S k)) =
  balance (state k) -
  fst (amortize defaults payment r (balance (state k)) (1 + Z.of_nat k)).
Proof.
  intros Hk. pose proof schedule_annuity_pos as HS.
  rewrite after_balance_step.
  rewrite (amortize_on_schedule _ k);
    [| assumption | apply after_balance_schedule; lia].
  cbn [fst snd]. rewrite after_balance_schedule by lia.
  cbn [annuity]. field. lra.
Qed.

End Amortization.

(** ** What a returning call of [compare_scenarios] computed *)

(** A call that returns went through the whole setup and then through the
    loop, all of its months. *)
Lemma compare_scenarios_Ok
    (d : LocationFinancialDefaults) (assumptions : option ScenarioAssumptions)
    (r : ComparisonResult.t) :
  compare_scenarios d assumptions = Ok r ->
  exists a am im,
    assumptions_or_default assumptions = Ok a /\
    annual_to_monthly_growth (appreciation_rate a) = Ok am /\
    annual_to_monthly_growth (investment_return a) = Ok im /\
    ComparisonResult.defaults r = d /\
    ComparisonResult.assumptions r = a /\
    ComparisonResult.timeline r = timeline (run d a am im (months_of a)) /\
    ComparisonResult.break_even_month r =
    break_even (run d a am im (months_of a)).
Proof.
  unfold compare_scenarios. intros H.
  destruct (assumptions_or_default assumptions) as [a | e]; [| discriminate].
  cbn [bind] in H.
  destruct (annual_to_monthly_growth (appreciation_rate a)) as [am | e] eqn:Ea;
    [| discriminate].
  destruct (annual_to_monthly_growth (investment_return a)) as [im | e] eqn:Ei;
    [| discriminate].
  cbn [bind] in H. injection H as <-.
  exists a, am, im. rewrite loop_after. cbn. auto 10.
Qed.

(** A call returns as soon as both annual growth rates are above -100%. *)
Lemma compare_scenarios_returns
    (d : LocationFinancialDefaults) (assumptions : option ScenarioAssumptions)
    (a : ScenarioAssumptions) :
  assumptions_or_default assumptions = Ok a ->
  -1 < appreciation_rate a -> -1 < investment_return a ->
  exists r, compare_scenarios d assumptions = Ok r.
Proof.
  intros Ha Happ Hinv. unfold compare_scenarios. rewrite Ha. cbn [bind].
  unfold annual_to_monthly_growth.
  destruct (Rleb_spec (appreciation_rate a) (-1)); [lra |].
  destruct (Rleb_spec (investment_return a) (-1)); [lra |].
  cbn [bind]. eauto.
Qed.

(** The timeline of a returning call, snapshot by snapshot. *)
Lemma compare_scenarios_timeline
    (d : LocationFinancialDefaults) (assumptions : option ScenarioAssumptions)
    (r : ComparisonResult.t) :
  compare_scenarios d assumptions = Ok r ->
  exists a am im,
    assumptions_or_default assumptions = Ok a /\
    annual_to_monthly_growth (appreciation_rate a) = Ok am /\
    annual_to_monthly_growth (investment_return a) = Ok im /\
    ComparisonResult.assumptions r = a /\
    List.length (ComparisonResult.timeline r) = months_of a /\
    (forall i s,
       nth_error (ComparisonResult.timeline r) i = Some s <->
       (i < months_of a)%nat /\
       s = snapshot_of (1 + Z.of_nat i) (run d a am im (S i))) /\
    ComparisonResult.break_even_month r =
    break_even (run d a am im (months_of a)).
Proof.
  intros H.
  apply compare_scenarios_Ok in H
    as (a & am & im & Ha & Ham & Him & _ & Hra & Htl & Hbe).
  exists a, am, im. rewrite Htl. repeat split; auto.
  - unfold run. apply length_timeline_after.
  - unfold run in H. now apply nth_error_timeline_after in H.
  - unfold run in H. now apply nth_error_timeline_after in H.
  - intros [Hi ->]. unfold run. now apply nth_error_timeline_after.
Qed.

(** The snapshot of a month of the horizon, found by its month number. *)
Lemma compare_scenarios_snapshot_at
    (d : LocationFinancialDefaults) (assumptions : option ScenarioAssumptions)
    (r : ComparisonResult.t) :
  compare_scenarios d assumptions = Ok r ->
  exists a am im,
    ComparisonResult.assumptions r = a /\
    forall m, (1 <= m <= horizon_years a * 12)%Z ->
      snapshot_at (ComparisonResult.timeline r) m =
      Some (snapshot_of m (run d a am im (Z.to_nat m))).
Proof.
  intros H.
  apply compare_scenarios_timeline in H
    as (a & am & im & _ & _ & _ & Ha & _ & Hnth & _).
  exists a, am, im. split; [exact Ha |].
  intros m Hm. unfold snapshot_at. destruct (Z.ltb_spec m 1); [lia |].
  apply Hnth. unfold months_of. split; [lia |].
  replace (S (Z.to_nat (m - 1))) with (Z.to_nat m) by lia.
  f_equal. lia.
Qed.

Lemma compare_scenarios_default_returns (d : LocationFinancialDefaults) :
  exists r, compare_scenarios d None = Ok r.
Proof.
  eapply compare_scenarios_returns.
  - cbn. apply default_ScenarioAssumptions_Ok.
  - cbn. lra.
  - cbn. lra.
Qed.

(** The first snapshot of a run with the default assumptions. *)
Lemma compare_scenarios_default_first (d : LocationFinancialDefaults) :
  exists r am im,
    compare_scenarios d None = Ok r /\
    nth_error (ComparisonResult.timeline r) 0 =
    Some (snapshot_of 1
            (run d {| horizon_years := 30; appreciation_rate := 0.03;
                      investment_return := 0.05;
                      savings_rate_of_income := 0.05 |} am im 1)).
Proof.
  destruct (compare_scenarios_default_returns d) as [r Hr].
  destruct (compare_scenarios_timeline _ _ _ Hr)
    as (a & am & im & Ha & _ & _ & _ & _ & Hnth & _).
  cbn in Ha. rewrite default_ScenarioAssumptions_Ok in Ha.
  injection Ha as <-.
  exists r, am, im. split; [exact Hr |].
  apply Hnth. split; [| reflexivity].
  unfold months_of. cbn [horizon_years]. lia.
Qed.

Lemma behind_not_caught_up (s : MonthlySnapshot.t) :
  behind s -> ~ caught_up s.
Proof.
  intros (p & e & Hp & He & Hlt) (p' & e' & Hp' & He' & Hge).
  rewrite Hp in Hp'. rewrite He in He'.
  injection Hp' as <-. injection He' as <-. lra.
Qed.

(** With no interest every month of the term pays the same principal. *)
Lemma zero_rate_principal_payment
    (d : LocationFinancialDefaults) (a : ScenarioAssumptions)
    (am im : R) (k : nat) :
  interest_rate d = 0 ->
  0 < loan_amount d -> (0 < loan_term_months d)%Z ->
  (k < Z.to_nat (loan_term_months d))%nat ->
  principal_payment d (balance (run d a am im k)) (1 + Z.of_nat k) =
  loan_amount d / IZR (loan_term_months d).
Proof.
  intros Hrate Hloan Hterm Hk. unfold principal_payment, run.
  rewrite after_principal_payment by assumption.
  rewrite Hrate, annual_to_monthly_rate_zero.
  replace (1 + 0) with 1 by ring.
  rewrite pow1, annuity_one, INR_IZR_INZ, Z2Nat.id by lia.
  field. apply not_0_IZR. lia.
Qed.

(** ** Two computations *)

(** [1.005 ^ 360], between two fractions of the integers [201 ^ 360] and
    [200 ^ 360]: what the bounds of the worked example come down to. *)
Lemma worked_scenario_integers :
  (200 ^ 360 < 201 ^ 360)%Z /\
  (179865 * (201 ^ 360 - 200 ^ 360) < 150000 * 201 ^ 360)%Z /\
  (1500000 * 201 ^ 360 < 1798652 * (201 ^ 360 - 200 ^ 360))%Z.
Proof. split; [| split]; vm_compute; reflexivity. Qed.

(** The run of the ten-month loan in binary64, whatever [**] computes:
    ten payments of [0.1] leave [2^-53 * 1.25] of the dollar. *)
Lemma binary64_ten_month_loan (pow : float -> float -> float) :
  exists r s,
    Binary64.compare_scenarios pow Binary64.ten_month_loan
      (Some Binary64.one_year) = Ok r /\
    nth_error (Binary64.ComparisonResult.timeline r) 9 = Some s /\
    Binary64.MonthlySnapshot.month s = 10%Z /\
    Binary64.MonthlySnapshot.loan_balance s = Some 0x1.4p-53%float.
Proof.
  destruct (Binary64.compare_scenarios pow Binary64.ten_month_loan
              (Some Binary64.one_year)) as [r | e] eqn:E;
    vm_compute in E; [| discriminate].
  injection E as <-.
  eexists _, _. split; [reflexivity |].
  cbn [Binary64.ComparisonResult.timeline nth_error
       Binary64.MonthlySnapshot.month Binary64.MonthlySnapshot.loan_balance].
  repeat split.
Qed.

(** ** Binary64: the payment and the length of the timeline *)



(** Every iteration of the loop appends one snapshot. *)
Lemma binary64_timeline_length
    (d : Binary64.LocationFinancialDefaults)
    (mortgage_payment mortgage_rate_monthly : float)
    (appreciation_monthly investment_monthly monthly_investment : float)
    (months : list Z) (st : Binary64.locals) :
  List.length
    (Binary64.timeline
       (fold_left
          (Binary64.loop_body d mortgage_payment mortgage_rate_monthly
             appreciation_monthly investment_monthly monthly_investment)
          months st)) =
  (List.length (Binary64.timeline st) + List.length months)%nat.
Proof.
  revert st. induction months as [| month months IH]; intros st.
  - cbn. lia.
  - cbn [fold_left]. rewrite IH.
    cbn [Binary64.loop_body Binary64.timeline List.length].
    unfold Binary64.loop_body. cbn [Binary64.timeline].
    rewrite length_app. cbn [List.length]. lia.
Qed.

(** Called without assumptions, the binary64 program runs on
    [ScenarioAssumptions()], whose two growth rates convert. *)
Lemma binary64_default_run
    (pow : float -> float -> float)
    (d : Binary64.LocationFinancialDefaults) :
  Binary64.compare_scenarios pow d None =
  Binary64.compare_scenarios pow d (Some Binary64.the_default_assumptions)
  /\
  (exists appreciation_monthly,
     Binary64.annual_to_monthly_growth pow
       (Binary64.appreciation_rate Binary64.the_default_assumptions) =
     Ok appreciation_monthly) /\
  (exists investment_monthly,
     Binary64.annual_to_monthly_growth pow
       (Binary64.investment_return Binary64.the_default_assumptions) =
     Ok investment_monthly).
Proof.
  split; [| split].
  - unfold Binary64.compare_scenarios.
    replace Binary64.default_ScenarioAssumptions
      with (Ok Binary64.the_default_assumptions)
      by (vm_compute; reflexivity).
    reflexivity.
  - unfold Binary64.annual_to_monthly_growth.
    replace (PrimFloat.leb
               (Binary64.appreciation_rate Binary64.the_default_assumptions)
               (-1)) with false by (vm_compute; reflexivity).
    eexists. reflexivity.
  - unfold Binary64.annual_to_monthly_growth.
    replace (PrimFloat.leb
               (Binary64.investment_return Binary64.the_default_assumptions)
               (-1)) with false by (vm_compute; reflexivity).
    eexists. reflexivity.
Qed.

(** * The claims *)

(** C1: in the result of every run, [break_even_month], when set, is the
    1-based month of a snapshot whose [renter_portfolio] is at least its
    [equity]; every earlier month has [renter_portfolio < equity], so it is
    the smallest such month; when unset, every month of the timeline has
    [renter_portfolio < equity].  An iteration of the loop never changes a
    [break_even] that is set. *)
Theorem break_even_month_first_crossing
    (d : LocationFinancialDefaults) (assumptions : option ScenarioAssumptions)
    (r : ComparisonResult.t) :
  compare_scenarios d assumptions = Ok r ->
  match ComparisonResult.break_even_month r with
  | Some m =>
      (exists s,
         snapshot_at (ComparisonResult.timeline r) m = Some s /\
         MonthlySnapshot.month s = m /\ caught_up s) /\
      (forall s, In s (ComparisonResult.timeline r) ->
         (MonthlySnapshot.month s < m)%Z -> behind s) /\
      (forall s, In s (ComparisonResult.timeline r) ->
         caught_up s -> (m <= MonthlySnapshot.month s)%Z)
  | None =>
      forall s, In s (ComparisonResult.timeline r) ->
        behind s /\ ~ caught_up s
  end /\
  (forall mortgage_payment mortgage_rate_monthly appreciation_monthly
          investment_monthly monthly_investment st month m,
     break_even st = Some m ->
     break_even (loop_body d mortgage_payment mortgage_rate_monthly
                   appreciation_monthly investment_monthly
                   monthly_investment st month) = Some m).
Proof.
  intros H. split; [| intros; now apply body_break_even_kept].
  apply compare_scenarios_timeline in H
    as (a & am & im & _ & _ & _ & _ & _ & Hnth & ->).
  assert (Hin : forall s, In s (ComparisonResult.timeline r) ->
            exists i, (i < months_of a)%nat /\
              s = snapshot_of (1 + Z.of_nat i) (run d a am im (S i))).
  { intros s Hs. apply In_nth_error in Hs as [i Hi].
    exists i. now apply Hnth. }
  pose proof (after_break_even d
    (monthly_mortgage_payment (loan_amount d) (interest_rate d)
       (loan_term_months d))
    (annual_to_monthly_rate (interest_rate d)) am im
    (median_income d / 12 * savings_rate_of_income a) (months_of a)) as Hbe.
  fold (run d a am im (months_of a)) in Hbe.
  destruct (break_even (run d a am im (months_of a))) as [m |].
  - destruct Hbe as (j & Hj & -> & Hcross & Hbefore).
    assert (Hearlier : forall s, In s (ComparisonResult.timeline r) ->
              (MonthlySnapshot.month s < 1 + Z.of_nat j)%Z -> behind s).
    { intros s Hs Hm. destruct (Hin s Hs) as (i & Hi & ->).
      unfold snapshot_of in Hm. cbn [MonthlySnapshot.month] in Hm.
      assert (Hij : (i < j)%nat) by lia.
      eexists _, _. cbn. repeat split. now apply Hbefore. }
    split; [| split].
    + exists (snapshot_of (1 + Z.of_nat j) (run d a am im (S j))).
      split; [| split].
      * unfold snapshot_at.
        destruct (Z.ltb_spec (1 + Z.of_nat j) 1); [lia |].
        replace (Z.to_nat (1 + Z.of_nat j - 1)) with j by lia.
        now apply Hnth.
      * reflexivity.
      * eexists _, _. cbn. repeat split. exact Hcross.
    + exact Hearlier.
    + intros s Hs Hup.
      destruct (Z.le_gt_cases (1 + Z.of_nat j) (MonthlySnapshot.month s))
        as [Hle | Hgt]; [assumption |].
      exfalso. apply (behind_not_caught_up s); [| assumption].
      apply Hearlier; [assumption | lia].
  - intros s Hs. destruct (Hin s Hs) as (i & Hi & ->).
    assert (Hb : behind (snapshot_of (1 + Z.of_nat i) (run d a am im (S i)))).
    { eexists _, _. cbn. repeat split. now apply Hbe. }
    split; [exact Hb | now apply behind_not_caught_up].
Qed.

Lemma break_even_month_first_crossing_witness :
  exists r,
    compare_scenarios sample_defaults None = Ok r /\
    match ComparisonResult.break_even_month r with
    | Some m =>
        exists s,
          snapshot_at (ComparisonResult.timeline r) m = Some s /\
          MonthlySnapshot.month s = m /\ caught_up s
    | None =>
        forall s, In s (ComparisonResult.timeline r) -> behind s
    end.
Proof.
  destruct (compare_scenarios_default_returns sample_defaults) as [r Hr].
  exists r. split; [exact Hr |].
  pose proof (proj1 (break_even_month_first_crossing _ _ _ Hr)) as H.
  destruct (ComparisonResult.break_even_month r).
  - exact (proj1 H).
  - intros s Hs. exact (proj1 (H s Hs)).
Defined.

(** C2, as the code has it: in the result of a run over a loan amount that
    is not negative, every snapshot has [loan_balance >= 0]; and, with the
    arithmetic taken exactly, when the loan amount and the term are positive
    and the horizon covers the term, the snapshot of month
    [loan_term_months], and every later one, has [loan_balance = 0]. *)
Theorem loan_balance_nonneg_and_paid_off
    (d : LocationFinancialDefaults) (assumptions : option ScenarioAssumptions)
    (r : ComparisonResult.t) :
  compare_scenarios d assumptions = Ok r ->
  (0 <= loan_amount d ->
   forall s, In s (ComparisonResult.timeline r) ->
     exists b, MonthlySnapshot.loan_balance s = Some b /\ 0 <= b) /\
  (0 < loan_amount d -> (0 < loan_term_months d)%Z ->
   (loan_term_months d <=
    horizon_years (ComparisonResult.assumptions r) * 12)%Z ->
   forall m,
     (loan_term_months d <= m <=
      horizon_years (ComparisonResult.assumptions r) * 12)%Z ->
     exists s,
       snapshot_at (ComparisonResult.timeline r) m = Some s /\
       MonthlySnapshot.month s = m /\
       MonthlySnapshot.loan_balance s = Some 0).
Proof.
  intros H. split.
  - apply compare_scenarios_timeline in H
      as (a & am & im & _ & _ & _ & _ & _ & Hnth & _).
    intros Hloan s Hs.
    apply In_nth_error in Hs as [i Hi]. apply Hnth in Hi as [_ ->].
    eexists. cbn [snapshot_of MonthlySnapshot.loan_balance].
    split; [reflexivity |]. unfold run. now apply after_balance_nonneg.
  - apply compare_scenarios_snapshot_at in H as (a & am & im & -> & Hat).
    intros Hloan Hterm Hhorizon m Hm.
    exists (snapshot_of m (run d a am im (Z.to_nat m))).
    split; [apply Hat; lia |]. split; [reflexivity |].
    cbn [snapshot_of MonthlySnapshot.loan_balance]. f_equal.
    unfold run. apply after_balance_paid_off; [assumption .. | lia].
Qed.

Lemma loan_balance_nonneg_and_paid_off_witness :
  exists r,
    compare_scenarios sample_defaults None = Ok r /\
    (forall s, In s (ComparisonResult.timeline r) ->
       exists b, MonthlySnapshot.loan_balance s = Some b /\ 0 <= b) /\
    exists s,
      snapshot_at (ComparisonResult.timeline r) 360 = Some s /\
      MonthlySnapshot.month s = 360%Z /\
      MonthlySnapshot.loan_balance s = Some 0.
Proof.
  destruct (compare_scenarios_default_returns sample_defaults) as [r Hr].
  exists r. split; [exact Hr |].
  destruct (loan_balance_nonneg_and_paid_off sample_defaults None r Hr)
    as [Hnonneg Hpaid].
  assert (Hh : horizon_years (ComparisonResult.assumptions r) = 30%Z).
  { destruct (compare_scenarios_Ok _ _ _ Hr)
      as (a & _ & _ & Ha & _ & _ & _ & -> & _).
    cbn in Ha. rewrite default_ScenarioAssumptions_Ok in Ha.
    injection Ha as <-. reflexivity. }
  split.
  - apply Hnonneg. cbn. lra.
  - apply Hpaid; cbn [sample_defaults loan_amount loan_term_months];
      rewrite ?Hh; (lra || lia).
Defined.

(** C2 as stated fails: a negative loan amount is never paid on, and is the
    balance of every snapshot. *)
Lemma loan_balance_negative :
  exists r s b,
    compare_scenarios negative_loan_defaults None = Ok r /\
    nth_error (ComparisonResult.timeline r) 0 = Some s /\
    MonthlySnapshot.loan_balance s = Some b /\ b < 0.
Proof.
  destruct (compare_scenarios_default_first negative_loan_defaults)
    as (r & am & im & Hr & Hfirst).
  eexists r, _, _. split; [exact Hr |]. split; [exact Hfirst |].
  cbn [snapshot_of MonthlySnapshot.loan_balance].
  split; [reflexivity |]. unfold run.
  rewrite after_balance_frozen; cbn; lra.
Qed.

(** C3: a call that returns, on an argument the constructor of
    [ScenarioAssumptions] admits (or on [None]), yields a timeline of exactly
    [horizon_years * 12] snapshots, every one with all its fields set, the
    [i]-th of them (0-based) for month [i + 1]. *)
Theorem timeline_complete
    (d : LocationFinancialDefaults) (assumptions : option ScenarioAssumptions)
    (r : ComparisonResult.t) :
  well_formed assumptions ->
  compare_scenarios d assumptions = Ok r ->
  Z.of_nat (List.length (ComparisonResult.timeline r)) =
  (horizon_years (ComparisonResult.assumptions r) * 12)%Z /\
  (forall s, In s (ComparisonResult.timeline r) -> fully_populated s) /\
  (forall i s, nth_error (ComparisonResult.timeline r) i = Some s ->
     MonthlySnapshot.month s = (Z.of_nat i + 1)%Z).
Proof.
  intros Hwf H.
  apply compare_scenarios_timeline in H
    as (a & am & im & Ha & _ & _ & -> & Hlen & Hnth & _).
  split; [| split].
  - rewrite Hlen. apply months_of_constructed.
    now apply (assumptions_or_default_Ok assumptions).
  - intros s Hs. apply In_nth_error in Hs as [i Hi].
    apply Hnth in Hi as [_ ->].
    repeat split; cbn; discriminate.
  - intros i s Hi. apply Hnth in Hi as [_ ->].
    cbn [snapshot_of MonthlySnapshot.month]. lia.
Qed.

Lemma timeline_complete_witness :
  exists r,
    compare_scenarios sample_defaults None = Ok r /\
    Z.of_nat (List.length (ComparisonResult.timeline r)) =
    (horizon_years (ComparisonResult.assumptions r) * 12)%Z /\
    (forall s, In s (ComparisonResult.timeline r) -> fully_populated s).
Proof.
  destruct (compare_scenarios_default_returns sample_defaults) as [r Hr].
  exists r. split; [exact Hr |].
  pose proof (timeline_complete sample_defaults None r I Hr) as H.
  split; [exact (proj1 H) | exact (proj1 (proj2 H))].
Defined.

(** C4, with the arithmetic taken exactly: in the result of a run with
    [interest_rate = 0], a positive loan amount and term, and a horizon that
    covers the term, every month of the term pays
    [loan_amount / loan_term_months] of principal and lowers the balance by
    exactly that, and the snapshot of month [loan_term_months] has
    [loan_balance = 0]. *)
Theorem zero_rate_straight_line
    (d : LocationFinancialDefaults) (assumptions : option ScenarioAssumptions)
    (r : ComparisonResult.t) :
  compare_scenarios d assumptions = Ok r ->
  interest_rate d = 0 ->
  0 < loan_amount d -> (0 < loan_term_months d)%Z ->
  (loan_term_months d <=
   horizon_years (ComparisonResult.assumptions r) * 12)%Z ->
  (forall m, (1 <= m <= loan_term_months d)%Z ->
     exists s b,
       snapshot_at (ComparisonResult.timeline r) m = Some s /\
       balance_before d (ComparisonResult.timeline r) m = Some b /\
       principal_payment d b m = loan_amount d / IZR (loan_term_months d) /\
       MonthlySnapshot.loan_balance s =
       Some (b - loan_amount d / IZR (loan_term_months d))) /\
  (exists s,
     snapshot_at (ComparisonResult.timeline r) (loan_term_months d) = Some s /\
     MonthlySnapshot.loan_balance s = Some 0).
Proof.
  intros H Hrate Hloan Hterm Hhorizon.
  apply compare_scenarios_snapshot_at in H as (a & am & im & Ha & Hat).
  rewrite Ha in Hhorizon.
  split.
  2:{ exists (snapshot_of (loan_term_months d)
                (run d a am im (Z.to_nat (loan_term_months d)))).
      split; [apply Hat; lia |].
      cbn [snapshot_of MonthlySnapshot.loan_balance]. f_equal.
      unfold run. apply after_balance_paid_off; [assumption .. | lia]. }
  intros m Hm.
  set (k := Z.to_nat (m - 1)).
  assert (Hk : (k < Z.to_nat (loan_term_months d))%nat) by (subst k; lia).
  assert (Hmk : m = (1 + Z.of_nat k)%Z) by (subst k; lia).
  assert (HSk : Z.to_nat m = S k) by (subst k; lia).
  assert (Hpay : principal_payment d (balance (run d a am im k)) m =
                 loan_amount d / IZR (loan_term_months d)).
  { rewrite Hmk. now apply zero_rate_principal_payment. }
  exists (snapshot_of m (run d a am im (Z.to_nat m))),
         (balance (run d a am im k)).
  split; [apply Hat; lia |]. split; [| split].
  - unfold balance_before. destruct (Z.eqb_spec m 1) as [E | E].
    + replace k with 0%nat by (subst k; lia). reflexivity.
    + rewrite Hat by lia.
      cbn [snapshot_of MonthlySnapshot.loan_balance].
      replace (Z.to_nat (m - 1)) with k by reflexivity. reflexivity.
  - exact Hpay.
  - cbn [snapshot_of MonthlySnapshot.loan_balance]. f_equal.
    rewrite HSk, <- Hpay, Hmk. unfold run, principal_payment.
    now apply after_balance_minus_principal.
Qed.

Lemma zero_rate_straight_line_witness :
  exists r,
    compare_scenarios interest_free_defaults None = Ok r /\
    (forall m, (1 <= m <= 12)%Z ->
       exists s b,
         snapshot_at (ComparisonResult.timeline r) m = Some s /\
         balance_before interest_free_defaults
           (ComparisonResult.timeline r) m = Some b /\
         principal_payment interest_free_defaults b m = 1200 / 12 /\
         MonthlySnapshot.loan_balance s = Some (b - 1200 / 12)) /\
    exists s,
      snapshot_at (ComparisonResult.timeline r) 12 = Some s /\
      MonthlySnapshot.loan_balance s = Some 0.
Proof.
  destruct (compare_scenarios_default_returns interest_free_defaults)
    as [r Hr].
  exists r. split; [exact Hr |].
  assert (Hh : horizon_years (ComparisonResult.assumptions r) = 30%Z).
  { destruct (compare_scenarios_Ok _ _ _ Hr)
      as (a & _ & _ & Ha & _ & _ & _ & -> & _).
    cbn in Ha. rewrite default_ScenarioAssumptions_Ok in Ha.
    injection Ha as <-. reflexivity. }
  apply (zero_rate_straight_line interest_free_defaults None r Hr);
    cbn [interest_free_defaults interest_rate loan_amount loan_term_months];
    rewrite ?Hh; (reflexivity || lra || lia).
Defined.

(** C4 as stated fails on the doubles the code computes with: one dollar
    lent interest-free over ten months is paid [0.1] a month, and after the
    tenth payment the balance is [2^-53 * 1.25], not [0], whatever [**]
    computes for the growth rates. *)
Lemma binary64_balance_residue :
  exists b : float,
    PrimFloat.eqb b 0%float = false /\
    forall pow, exists r s,
      Binary64.compare_scenarios pow Binary64.ten_month_loan
        (Some Binary64.one_year) = Ok r /\
      nth_error (Binary64.ComparisonResult.timeline r) 9 = Some s /\
      Binary64.MonthlySnapshot.month s = 10%Z /\
      Binary64.MonthlySnapshot.loan_balance s = Some b.
Proof.
  exists 0x1.4p-53%float. split; [vm_compute; reflexivity |].
  exact binary64_ten_month_loan.
Qed.





(** C6, as the code has it: in the result of a run on an argument the
    constructor of [ScenarioAssumptions] admits, every snapshot has
    [equity >= 0], whatever the loan balance and the home value; and when
    the median income is not negative every snapshot has
    [renter_portfolio >= 0]. *)
Theorem equity_and_portfolio_nonneg
    (d : LocationFinancialDefaults) (assumptions : option ScenarioAssumptions)
    (r : ComparisonResult.t) :
  well_formed assumptions ->
  compare_scenarios d assumptions = Ok r ->
  forall s, In s (ComparisonResult.timeline r) ->
    (exists e, MonthlySnapshot.equity s = Some e /\ 0 <= e) /\
    (0 <= median_income d ->
     exists p, MonthlySnapshot.renter_portfolio s = Some p /\ 0 <= p).
Proof.
  intros Hwf H s Hs.
  apply compare_scenarios_timeline in H
    as (a & am & im & Ha & _ & Him & _ & _ & Hnth & _).
  apply In_nth_error in Hs as [i Hi]. apply Hnth in Hi as [_ ->].
  split.
  - eexists. cbn [snapshot_of MonthlySnapshot.equity].
    split; [reflexivity | apply equity_of_nonneg].
  - intros Hincome. eexists.
    cbn [snapshot_of MonthlySnapshot.renter_portfolio].
    split; [reflexivity |]. unfold run.
    apply after_portfolio_nonneg.
    + apply annual_to_monthly_growth_factor_pos in Him. lra.
    + apply (assumptions_or_default_Ok assumptions) in Ha; [| assumption].
      apply post_init_Ok in Ha as [_ [Hs0 _]].
      apply Rmult_le_pos; lra.
Qed.

Lemma equity_and_portfolio_nonneg_witness :
  exists r,
    compare_scenarios sample_defaults None = Ok r /\
    forall s, In s (ComparisonResult.timeline r) ->
      (exists e, MonthlySnapshot.equity s = Some e /\ 0 <= e) /\
      (exists p, MonthlySnapshot.renter_portfolio s = Some p /\ 0 <= p).
Proof.
  destruct (compare_scenarios_default_returns sample_defaults) as [r Hr].
  exists r. split; [exact Hr |].
  intros s Hs.
  destruct (equity_and_portfolio_nonneg sample_defaults None r I Hr s Hs)
    as [He Hp].
  split; [exact He |]. apply Hp. cbn. lra.
Defined.

(** C6 as stated fails: with a negative median income the renter's
    portfolio of the first month is negative. *)
Lemma renter_portfolio_negative :
  exists r s p,
    compare_scenarios negative_income_defaults None = Ok r /\
    nth_error (ComparisonResult.timeline r) 0 = Some s /\
    MonthlySnapshot.renter_portfolio s = Some p /\ p < 0.
Proof.
  destruct (compare_scenarios_default_first negative_income_defaults)
    as (r & am & im & Hr & Hfirst).
  eexists r, _, _. split; [exact Hr |]. split; [exact Hfirst |].
  cbn. split; [reflexivity | lra].
Qed.



(** C8: [monthly_mortgage_payment(300000, 6.0, 360)] is
    [300000 * 0.005 / (1 - 1.005 ^ (-360))], the amortization formula at
    the monthly rate [0.005], and lies within [0.002] of [1798.65]. *)
Theorem worked_scenario_payment :
  monthly_mortgage_payment 300000 6 360 =
  300000 * 0.005 / (1 - powerRZ 1.005 (-360)) /\
  1798.65 < monthly_mortgage_payment 300000 6 360 < 1798.652.
Proof.
  assert (Hformula : monthly_mortgage_payment 300000 6 360 =
                     300000 * 0.005 / (1 - powerRZ 1.005 (-360))).
  { unfold monthly_mortgage_payment, annual_to_monthly_rate.
    destruct (Rleb_spec 300000 0); [lra |].
    destruct (Rleb_spec 6 0); [lra |]. cbn [orb Z.leb Z.compare].
    destruct (Reqb_spec (6 / 100 / 12) 0); [lra |].
    replace (6 / 100 / 12) with 0.005 by lra.
    replace (1 + 0.005) with 1.005 by lra. reflexivity. }
  split; [exact Hformula |]. rewrite Hformula.
  destruct worked_scenario_integers as (H0 & Hlo & Hhi).
  apply IZR_lt in H0, Hlo, Hhi.
  rewrite !mult_IZR, !minus_IZR in Hlo, Hhi.
  change 360%Z with (Z.of_nat 360) in H0, Hlo, Hhi.
  rewrite <- !pow_IZR in H0, Hlo, Hhi.
  change (-360)%Z with (- Z.of_nat 360)%Z.
  rewrite powerRZ_neg', <- pow_powerRZ.
  replace 1.005 with (IZR 201 * / IZR 200) by lra.
  rewrite Rpow_mult_distr, pow_inv.
  assert (HB : 0 < IZR 200 ^ 360) by (apply pow_lt; lra).
  set (A := IZR 201 ^ 360) in *. set (B := IZR 200 ^ 360) in *.
  clearbody A B.
  replace (300000 * 0.005) with 1500 by lra.
  replace (1500 / (1 - / (A * / B))) with (1500 * A / (A - B))
    by (field; repeat split; lra).
  split.
  - apply Rmult_lt_reg_r with (A - B); [lra |].
    unfold Rdiv. rewrite Rmult_assoc, Rinv_l by lra. lra.
  - apply Rmult_lt_reg_r with (A - B); [lra |].
    unfold Rdiv. rewrite Rmult_assoc, Rinv_l by lra. lra.
Qed.

(** C9: in the result of every run the loan balances of consecutive
    snapshots never increase, and the first snapshot's balance is at most
    the loan amount. *)
Theorem loan_balance_non_increasing
    (d : LocationFinancialDefaults) (assumptions : option ScenarioAssumptions)
    (r : ComparisonResult.t) :
  compare_scenarios d assumptions = Ok r ->
  (forall i s s',
     nth_error (ComparisonResult.timeline r) i = Some s ->
     nth_error (ComparisonResult.timeline r) (S i) = Some s' ->
     exists b b',
       MonthlySnapshot.loan_balance s = Some b /\
       MonthlySnapshot.loan_balance s' = Some b' /\ b' <= b) /\
  (forall s,
     nth_error (ComparisonResult.timeline r) 0 = Some s ->
     exists b, MonthlySnapshot.loan_balance s = Some b /\ b <= loan_amount d).
Proof.
  intros H.
  apply compare_scenarios_timeline in H
    as (a & am & im & _ & _ & _ & _ & _ & Hnth & _).
  split.
  - intros i s s' Hs Hs'.
    apply Hnth in Hs as [_ ->]. apply Hnth in Hs' as [_ ->].
    eexists _, _. cbn [snapshot_of MonthlySnapshot.loan_balance].
    repeat split. unfold run. apply after_balance_le.
  - intros s Hs. apply Hnth in Hs as [_ ->].
    eexists. cbn [snapshot_of MonthlySnapshot.loan_balance].
    split; [reflexivity |]. unfold run. apply after_balance_le_loan.
Qed.

Lemma loan_balance_non_increasing_witness :
  exists r,
    compare_scenarios sample_defaults None = Ok r /\
    forall s,
      nth_error (ComparisonResult.timeline r) 0 = Some s ->
      exists b, MonthlySnapshot.loan_balance s = Some b /\ b <= 300000.
Proof.
  destruct (compare_scenarios_default_returns sample_defaults) as [r Hr].
  exists r. split; [exact Hr |].
  exact (proj2 (loan_balance_non_increasing sample_defaults None r Hr)).
Defined.

(** C10: in the result of a run over a property value and an annual
    appreciation rate that are not negative, the home values of consecutive
    snapshots never decrease, and every one is at least the property
    value. *)
Theorem home_value_non_decreasing
    (d : LocationFinancialDefaults) (assumptions : option ScenarioAssumptions)
    (r : ComparisonResult.t) :
  compare_scenarios d assumptions = Ok r ->
  0 <= property_value d ->
  0 <= appreciation_rate (ComparisonResult.assumptions r) ->
  (forall i s s',
     nth_error (ComparisonResult.timeline r) i = Some s ->
     nth_error (ComparisonResult.timeline r) (S i) = Some s' ->
     exists v v',
       MonthlySnapshot.home_value s = Some v /\
       MonthlySnapshot.home_value s' = Some v' /\ v <= v') /\
  (forall s, In s (ComparisonResult.timeline r) ->
     exists v,
       MonthlySnapshot.home_value s = Some v /\ property_value d <= v).
Proof.
  intros H Hv Hrate.
  apply compare_scenarios_timeline in H
    as (a & am & im & _ & Ham & _ & Ha & _ & Hnth & _).
  rewrite Ha in Hrate.
  pose proof (annual_to_monthly_growth_nonneg _ _ Hrate Ham) as Hg.
  split.
  - intros i s s' Hs Hs'.
    apply Hnth in Hs as [_ ->]. apply Hnth in Hs' as [_ ->].
    eexists _, _. cbn [snapshot_of MonthlySnapshot.home_value].
    repeat split. unfold run. now apply after_home_value_ge.
  - intros s Hs. apply In_nth_error in Hs as [i Hi].
    apply Hnth in Hi as [_ ->].
    eexists. cbn [snapshot_of MonthlySnapshot.home_value].
    split; [reflexivity |]. unfold run. now apply after_home_value_ge.
Qed.

Lemma home_value_non_decreasing_witness :
  exists r,
    compare_scenarios sample_defaults None = Ok r /\
    forall s, In s (ComparisonResult.timeline r) ->
      exists v, MonthlySnapshot.home_value s = Some v /\ 375000 <= v.
Proof.
  destruct (compare_scenarios_default_returns sample_defaults) as [r Hr].
  exists r. split; [exact Hr |].
  refine (proj2 (home_value_non_decreasing sample_defaults None r Hr _ _)).
  - cbn. lra.
  - destruct (compare_scenarios_Ok _ _ _ Hr)
      as (a & _ & _ & Ha & _ & _ & _ & -> & _).
    cbn in Ha. rewrite default_ScenarioAssumptions_Ok in Ha.
    injection Ha as <-. cbn. lra.
Defined.

(** * Further properties of the code *)

(** ** Growth conversion *)

(** Twelve months of the monthly growth compound to the annual rate. *)
Lemma growth_compounds (annual_rate g : R) :
  annual_to_monthly_growth annual_rate = Ok g ->
  (1 + g) ^ 12 = 1 + annual_rate.
Proof.
  intros H. apply annual_to_monthly_growth_Ok in H as [Hrate ->].
  replace (1 + (Rpower (1 + annual_rate) (1 / 12) - 1))
    with (Rpower (1 + annual_rate) (1 / 12)) by ring.
  rewrite <- Rpower_pow by (unfold Rpower; apply exp_pos).
  rewrite Rpower_mult.
  replace (1 / 12 * INR 12) with 1.
  - apply Rpower_1. lra.
  - rewrite INR_IZR_INZ. cbn [Z.of_nat Pos.of_succ_nat Pos.succ]. lra.
Qed.

(** The monthly growth has the sign of the annual rate. *)
Lemma growth_sign (annual_rate g : R) :
  annual_to_monthly_growth annual_rate = Ok g ->
  (annual_rate < 0 -> g < 0) /\
  (annual_rate = 0 -> g = 0) /\
  (0 < annual_rate -> 0 < g).
Proof.
  intros H. apply annual_to_monthly_growth_Ok in H as [Hrate ->].
  assert (H1 : Rpower 1 (1 / 12) = 1).
  { unfold Rpower. rewrite ln_1, Rmult_0_r. apply exp_0. }
  split; [| split]; intros Hs.
  - assert (Rpower (1 + annual_rate) (1 / 12) < Rpower 1 (1 / 12))
      by (apply Rlt_Rpower_l; lra).
    lra.
  - subst annual_rate. replace (1 + 0) with 1 by ring. lra.
  - assert (Rpower 1 (1 / 12) < Rpower (1 + annual_rate) (1 / 12))
      by (apply Rlt_Rpower_l; lra).
    lra.
Qed.

(** ** More on the loop *)

Section MoreLoopFacts.

Variable defaults : LocationFinancialDefaults.
Variables mortgage_payment mortgage_rate_monthly : R.
Variables appreciation_monthly investment_monthly : R.
Variable monthly_investment : R.

Local Abbreviation state :=
  (after defaults mortgage_payment mortgage_rate_monthly
         appreciation_monthly investment_monthly monthly_investment).

Lemma after_home_value_closed (k : nat) :
  home_value (state k) =
  property_value defaults * (1 + appreciation_monthly) ^ k.
Proof.
  induction k as [| k IH]; [cbn; ring |].
  rewrite after_home_value_step, IH. cbn [pow]. ring.
Qed.

Lemma after_home_value_nonneg (k : nat) :
  0 <= property_value defaults -> 0 <= 1 + appreciation_monthly ->
  0 <= home_value (state k).
Proof.
  intros Hv Hg. rewrite after_home_value_closed.
  apply Rmult_le_pos; [assumption | now apply pow_le].
Qed.

Lemma after_home_value_shrinks (k : nat) :
  0 <= property_value defaults ->
  0 <= 1 + appreciation_monthly -> appreciation_monthly <= 0 ->
  home_value (state (S k)) <= home_value (state k) /\
  home_value (state k) <= property_value defaults.
Proof.
  intros Hv Hg Hneg. induction k as [| k [IH1 IH2]].
  - cbn. split; [nra | lra].
  - pose proof (after_home_value_nonneg (S k) Hv Hg) as H0.
    split; [| lra].
    rewrite (after_home_value_step _ _ _ _ _ _ (S k)). nra.
Qed.

Lemma after_portfolio_closed (k : nat) :
  portfolio (state k) =
  monthly_investment * annuity (1 + investment_monthly) k.
Proof.
  induction k as [| k IH]; [cbn; ring |].
  rewrite after_portfolio_step, IH, annuity_unfold. ring.
Qed.

Lemma after_portfolio_mono (k : nat) :
  0 <= investment_monthly -> 0 <= monthly_investment ->
  portfolio (state k) <= portfolio (state (S k)).
Proof.
  intros Hg Hc.
  assert (H0 : 0 <= portfolio (state k))
    by (apply after_portfolio_nonneg; lra).
  rewrite after_portfolio_step. nra.
Qed.

(** Past the term no payment is made. *)
Lemma after_balance_beyond_term (k : nat) :
  (loan_term_months defaults < 1 + Z.of_nat k)%Z ->
  balance (state (S k)) = balance (state k).
Proof.
  intros Hk. rewrite after_balance_step. unfold amortize.
  destruct (Z.leb_spec (1 + Z.of_nat k) (loan_term_months defaults));
    [lia |].
  rewrite andb_false_r. reflexivity.
Qed.

(** Without a payment the balance never moves. *)
Lemma after_balance_no_payment (k : nat) :
  mortgage_payment <= 0 -> balance (state k) = loan_amount defaults.
Proof.
  intros Hp. induction k as [| k IH]; [reflexivity |].
  rewrite after_balance_step, IH. unfold amortize.
  destruct (Rgtb_spec mortgage_payment 0); [lra |].
  rewrite andb_false_r. reflexivity.
Qed.

(** What [timeline[-1]] reads once a month has been simulated. *)
Lemma after_timeline_last (k : nat) (A : Type)
    (f : MonthlySnapshot.t -> A) (d : A) :
  match timeline (state (S k)) with
  | [] => d
  | s :: tl => f (last tl s)
  end = f (snapshot_of (1 + Z.of_nat k) (state (S k))).
Proof.
  cbn [after]. rewrite body_timeline.
  destruct (timeline (state k)) as [| s tl]; [reflexivity |].
  cbn [app]. rewrite last_last. reflexivity.
Qed.

End MoreLoopFacts.

(** ** Every field of a returned result *)

Lemma compare_scenarios_fields
    (d : LocationFinancialDefaults) (assumptions : option ScenarioAssumptions)
    (r : ComparisonResult.t) :
  compare_scenarios d assumptions = Ok r ->
  exists a am im,
    assumptions_or_default assumptions = Ok a /\
    annual_to_monthly_growth (appreciation_rate a) = Ok am /\
    annual_to_monthly_growth (investment_return a) = Ok im /\
    r = ComparisonResult.mk d a
          (monthly_mortgage_payment (loan_amount d) (interest_rate d)
             (loan_term_months d) + owner_non_pi_costs d)
          (median_rent d)
          (match months_of a with
           | O => Some 0
           | S k => Some (equity_of (run d a am im (S k)))
           end)
          (match months_of a with
           | O => Some 0
           | S k => Some (portfolio (run d a am im (S k)))
           end)
          (break_even (run d a am im (months_of a)))
          (timeline (run d a am im (months_of a))) /\
    (forall m, (1 <= m <= Z.of_nat (months_of a))%Z ->
       snapshot_at (ComparisonResult.timeline r) m =
       Some (snapshot_of m (run d a am im (Z.to_nat m)))) /\
    (forall s, In s (ComparisonResult.timeline r) ->
       exists m, (1 <= m <= Z.of_nat (months_of a))%Z /\
         s = snapshot_of m (run d a am im (Z.to_nat m))).
Proof.
  intros H.
  pose proof (compare_scenarios_timeline d assumptions r H)
    as (a & am & im & Ha & Ham & Him & _ & _ & Hnth & _).
  exists a, am, im. repeat split; try assumption.
  - unfold compare_scenarios in H. rewrite Ha in H. cbn [bind] in H.
    rewrite Ham, Him in H. cbn [bind] in H. injection H as <-.
    rewrite loop_after. fold (months_of a). unfold run.
    destruct (months_of a) as [| k]; [reflexivity |].
    rewrite !after_timeline_last. reflexivity.
  - intros m Hm. unfold snapshot_at. destruct (Z.ltb_spec m 1); [lia |].
    apply Hnth. split; [lia |].
    replace (S (Z.to_nat (m - 1))) with (Z.to_nat m) by lia.
    f_equal. lia.
  - intros s Hs. apply In_nth_error in Hs as [i Hi].
    apply Hnth in Hi as [Hi ->].
    exists (1 + Z.of_nat i)%Z. split; [lia |].
    replace (Z.to_nat (1 + Z.of_nat i)) with (S i) by lia. reflexivity.
Qed.

Lemma compare_scenarios_default_assumptions
    (d : LocationFinancialDefaults) (r : ComparisonResult.t) :
  compare_scenarios d None = Ok r ->
  ComparisonResult.assumptions r = the_default_assumptions.
Proof.
  intros H.
  apply compare_scenarios_Ok in H as (a & _ & _ & Ha & _ & _ & _ & -> & _).
  cbn in Ha. rewrite default_ScenarioAssumptions_Ok in Ha.
  injection Ha as <-. reflexivity.
Qed.

(** ** The extras *)

(** X1: for an annual rate above -100% [annual_to_monthly_growth] returns a
    monthly rate above -100% that compounds, over twelve months, to exactly
    the annual rate. *)
Theorem monthly_growth_compounds_to_annual (annual_rate : R) :
  -1 < annual_rate ->
  exists g,
    annual_to_monthly_growth annual_rate = Ok g /\
    -1 < g /\ (1 + g) ^ 12 = 1 + annual_rate.
Proof.
  intros Hrate.
  exists (Rpower (1 + annual_rate) (1 / 12) - 1).
  assert (H : annual_to_monthly_growth annual_rate =
              Ok (Rpower (1 + annual_rate) (1 / 12) - 1))
    by (apply annual_to_monthly_growth_Ok; split; [lra | reflexivity]).
  split; [exact H |]. split.
  - apply annual_to_monthly_growth_factor_pos in H. lra.
  - now apply growth_compounds.
Qed.

Lemma monthly_growth_compounds_to_annual_witness :
  exists g,
    annual_to_monthly_growth 0.03 = Ok g /\
    -1 < g /\ (1 + g) ^ 12 = 1 + 0.03.
Proof. apply (monthly_growth_compounds_to_annual 0.03). lra. Defined.

(** X2: in the result of every run the home value of month [m] is the
    property value compounded [m] times at the monthly growth, so that the
    snapshot closing year [y] has
    [home_value = property_value * (1 + appreciation_rate) ^ y]. *)
Theorem home_value_compounds
    (d : LocationFinancialDefaults) (assumptions : option ScenarioAssumptions)
    (r : ComparisonResult.t) :
  compare_scenarios d assumptions = Ok r ->
  exists g,
    annual_to_monthly_growth
      (appreciation_rate (ComparisonResult.assumptions r)) = Ok g /\
    (forall s, In s (ComparisonResult.timeline r) ->
       MonthlySnapshot.home_value s =
       Some (property_value d *
             (1 + g) ^ Z.to_nat (MonthlySnapshot.month s))) /\
    (forall y : nat,
       (1 <= Z.of_nat y <=
        horizon_years (ComparisonResult.assumptions r))%Z ->
       exists s,
         snapshot_at (ComparisonResult.timeline r) (12 * Z.of_nat y) =
         Some s /\
         MonthlySnapshot.home_value s =
         Some (property_value d *
               (1 + appreciation_rate (ComparisonResult.assumptions r)) ^ y)).
Proof.
  intros H.
  apply compare_scenarios_fields in H
    as (a & am & im & _ & Ham & _ & -> & Hat & Hin).
  cbn [ComparisonResult.assumptions ComparisonResult.timeline] in *.
  exists am. split; [exact Ham |]. split.
  - intros s Hs. destruct (Hin s Hs) as (m & Hm & ->).
    cbn [snapshot_of MonthlySnapshot.home_value MonthlySnapshot.month].
    unfold run. now rewrite after_home_value_closed.
  - intros y Hy.
    exists (snapshot_of (12 * Z.of_nat y)
              (run d a am im (Z.to_nat (12 * Z.of_nat y)))).
    split; [apply Hat; unfold months_of; lia |].
    cbn [snapshot_of MonthlySnapshot.home_value]. unfold run.
    rewrite after_home_value_closed.
    replace (Z.to_nat (12 * Z.of_nat y)) with (12 * y)%nat by lia.
    rewrite pow_mult, (growth_compounds _ _ Ham). reflexivity.
Qed.

Lemma home_value_compounds_witness :
  exists r s,
    compare_scenarios sample_defaults None = Ok r /\
    snapshot_at (ComparisonResult.timeline r) 120 = Some s /\
    MonthlySnapshot.home_value s = Some (375000 * (1 + 0.03) ^ 10).
Proof.
  destruct (compare_scenarios_default_returns sample_defaults) as [r Hr].
  destruct (home_value_compounds sample_defaults None r Hr)
    as (g & _ & _ & Hyear).
  rewrite (compare_scenarios_default_assumptions _ _ Hr) in Hyear.
  destruct (Hyear 10%nat) as (s & Hs & Hv);
    [cbn [the_default_assumptions horizon_years]; lia |].
  exists r, s. split; [exact Hr |]. split; [exact Hs | exact Hv].
Defined.

(** X3: in the result of a run over a property value that is not negative
    and an annual appreciation rate that is zero or negative, the home value
    never increases from one snapshot to the next and every snapshot's
    home value lies between [0] and the property value. *)
Theorem home_value_non_increasing
    (d : LocationFinancialDefaults) (assumptions : option ScenarioAssumptions)
    (r : ComparisonResult.t) :
  compare_scenarios d assumptions = Ok r ->
  0 <= property_value d ->
  appreciation_rate (ComparisonResult.assumptions r) <= 0 ->
  (forall i s s',
     nth_error (ComparisonResult.timeline r) i = Some s ->
     nth_error (ComparisonResult.timeline r) (S i) = Some s' ->
     exists v v',
       MonthlySnapshot.home_value s = Some v /\
       MonthlySnapshot.home_value s' = Some v' /\ v' <= v) /\
  (forall s, In s (ComparisonResult.timeline r) ->
     exists v,
       MonthlySnapshot.home_value s = Some v /\
       0 <= v <= property_value d).
Proof.
  intros H Hv Hrate.
  apply compare_scenarios_timeline in H
    as (a & am & im & _ & Ham & _ & Ha & _ & Hnth & _).
  rewrite Ha in Hrate.
  pose proof (annual_to_monthly_growth_factor_pos _ _ Ham) as Hpos.
  assert (Hneg : am <= 0).
  { destruct (growth_sign _ _ Ham) as (Hlt & Heq & _).
    destruct (Rle_lt_or_eq_dec _ _ Hrate) as [Hr | Hr];
      [apply Rlt_le, Hlt, Hr | rewrite (Heq Hr); lra]. }
  split.
  - intros i s s' Hs Hs'.
    apply Hnth in Hs as [_ ->]. apply Hnth in Hs' as [_ ->].
    eexists _, _. cbn [snapshot_of MonthlySnapshot.home_value].
    repeat split. unfold run.
    apply after_home_value_shrinks; lra.
  - intros s Hs. apply In_nth_error in Hs as [i Hi].
    apply Hnth in Hi as [_ ->].
    eexists. cbn [snapshot_of MonthlySnapshot.home_value].
    split; [reflexivity |]. unfold run. split.
    + apply after_home_value_nonneg; lra.
    + apply after_home_value_shrinks; lra.
Qed.

Lemma home_value_non_increasing_witness :
  exists r,
    compare_scenarios sample_defaults (Some falling_prices) = Ok r /\
    forall s, In s (ComparisonResult.timeline r) ->
      exists v, MonthlySnapshot.home_value s = Some v /\ 0 <= v <= 375000.
Proof.
  destruct (compare_scenarios_returns sample_defaults (Some falling_prices)
              falling_prices eq_refl) as [r Hr]; [cbn; lra | cbn; lra |].
  exists r. split; [exact Hr |].
  refine (proj2 (home_value_non_increasing sample_defaults _ r Hr _ _)).
  - cbn. lra.
  - apply compare_scenarios_Ok in Hr
      as (a & _ & _ & Ha & _ & _ & _ & -> & _).
    cbn in Ha. injection Ha as <-. cbn. lra.
Defined.

(** X4: in the result of every run, with [c] the monthly contribution
    [median_income / 12 * savings_rate_of_income] and [g] the monthly growth
    of the investment return, the renter's portfolio of month [m] is
    [c * (1 + (1 + g) + ... + (1 + g) ^ (m - 1))]: the first month holds one
    contribution, which has earned nothing yet, and with an investment
    return of [0] month [m] holds [m] contributions. *)
Theorem renter_portfolio_closed_form
    (d : LocationFinancialDefaults) (assumptions : option ScenarioAssumptions)
    (r : ComparisonResult.t) :
  compare_scenarios d assumptions = Ok r ->
  let a := ComparisonResult.assumptions r in
  let c := median_income d / 12 * savings_rate_of_income a in
  exists g,
    annual_to_monthly_growth (investment_return a) = Ok g /\
    (forall s, In s (ComparisonResult.timeline r) ->
       MonthlySnapshot.renter_portfolio s =
       Some (c * annuity (1 + g) (Z.to_nat (MonthlySnapshot.month s)))) /\
    (forall s, snapshot_at (ComparisonResult.timeline r) 1 = Some s ->
       MonthlySnapshot.renter_portfolio s = Some c) /\
    (investment_return a = 0 ->
     forall s, In s (ComparisonResult.timeline r) ->
       MonthlySnapshot.renter_portfolio s =
       Some (c * IZR (MonthlySnapshot.month s))).
Proof.
  intros H a c. subst a c.
  apply compare_scenarios_fields in H
    as (a & am & im & _ & _ & Him & -> & Hat & Hin).
  cbn [ComparisonResult.assumptions ComparisonResult.timeline] in *.
  assert (Hclosed : forall s,
            In s (timeline (run d a am im (months_of a))) ->
            MonthlySnapshot.renter_portfolio s =
            Some (median_income d / 12 * savings_rate_of_income a *
                  annuity (1 + im) (Z.to_nat (MonthlySnapshot.month s)))).
  { intros s Hs. destruct (Hin s Hs) as (m & Hm & ->).
    cbn [snapshot_of MonthlySnapshot.renter_portfolio MonthlySnapshot.month].
    unfold run. now rewrite after_portfolio_closed. }
  exists im. split; [exact Him |]. split; [exact Hclosed |]. split.
  - intros s Hs.
    assert (Hin1 : In s (timeline (run d a am im (months_of a)))).
    { unfold snapshot_at in Hs. change (1 <? 1)%Z with false in Hs.
      cbv iota in Hs. now apply nth_error_In in Hs. }
    rewrite (Hclosed s Hin1).
    destruct (Hin s Hin1) as (m & Hm & Hsm).
    assert (Hm1 : m = 1%Z).
    { destruct (Z.eq_dec m 1) as [E | E]; [exact E | exfalso].
      rewrite Hat in Hs by lia. injection Hs as Hs.
      rewrite Hsm in Hs. apply (f_equal MonthlySnapshot.month) in Hs.
      cbn in Hs. lia. }
    rewrite Hsm, Hm1. cbn [snapshot_of MonthlySnapshot.month].
    change (Z.to_nat 1) with 1%nat. cbn [annuity pow]. f_equal. ring.
  - intros Hzero s Hs. rewrite (Hclosed s Hs).
    destruct (growth_sign _ _ Him) as (_ & Heq & _).
    rewrite (Heq Hzero). replace (1 + 0) with 1 by ring.
    destruct (Hin s Hs) as (m & Hm & ->).
    cbn [snapshot_of MonthlySnapshot.month].
    rewrite annuity_one, INR_IZR_INZ, Z2Nat.id by lia. reflexivity.
Qed.

Lemma renter_portfolio_closed_form_witness :
  exists r,
    compare_scenarios sample_defaults None = Ok r /\
    forall s, snapshot_at (ComparisonResult.timeline r) 1 = Some s ->
      MonthlySnapshot.renter_portfolio s = Some (84000 / 12 * 0.05).
Proof.
  destruct (compare_scenarios_default_returns sample_defaults) as [r Hr].
  exists r. split; [exact Hr |].
  destruct (renter_portfolio_closed_form sample_defaults None r Hr)
    as (g & _ & _ & Hfirst & _).
  rewrite (compare_scenarios_default_assumptions _ _ Hr) in Hfirst.
  exact Hfirst.
Defined.

(** X5: in the result of a run over a median income and an investment
    return that are not negative, on an argument the constructor of
    [ScenarioAssumptions] admits, the renter's portfolio never decreases from
    one snapshot to the next. *)
Theorem renter_portfolio_non_decreasing
    (d : LocationFinancialDefaults) (assumptions : option ScenarioAssumptions)
    (r : ComparisonResult.t) :
  well_formed assumptions ->
  compare_scenarios d assumptions = Ok r ->
  0 <= median_income d ->
  0 <= investment_return (ComparisonResult.assumptions r) ->
  forall i s s',
    nth_error (ComparisonResult.timeline r) i = Some s ->
    nth_error (ComparisonResult.timeline r) (S i) = Some s' ->
    exists p p',
      MonthlySnapshot.renter_portfolio s = Some p /\
      MonthlySnapshot.renter_portfolio s' = Some p' /\ p <= p'.
Proof.
  intros Hwf H Hincome Hreturn i s s' Hs Hs'.
  apply compare_scenarios_timeline in H
    as (a & am & im & Ha & _ & Him & Hra & _ & Hnth & _).
  rewrite Hra in Hreturn.
  apply Hnth in Hs as [_ ->]. apply Hnth in Hs' as [_ ->].
  eexists _, _. cbn [snapshot_of MonthlySnapshot.renter_portfolio].
  repeat split. unfold run. apply after_portfolio_mono.
  - now apply (annual_to_monthly_growth_nonneg _ _ Hreturn).
  - apply (assumptions_or_default_Ok assumptions) in Ha; [| assumption].
    apply post_init_Ok in Ha as [_ [Hs0 _]].
    apply Rmult_le_pos; lra.
Qed.

Lemma renter_portfolio_non_decreasing_witness :
  exists r,
    compare_scenarios sample_defaults None = Ok r /\
    forall i s s',
      nth_error (ComparisonResult.timeline r) i = Some s ->
      nth_error (ComparisonResult.timeline r) (S i) = Some s' ->
      exists p p',
        MonthlySnapshot.renter_portfolio s = Some p /\
        MonthlySnapshot.renter_portfolio s' = Some p' /\ p <= p'.
Proof.
  destruct (compare_scenarios_default_returns sample_defaults) as [r Hr].
  exists r. split; [exact Hr |].
  apply (renter_portfolio_non_decreasing sample_defaults None r I Hr).
  - cbn. lra.
  - rewrite (compare_scenarios_default_assumptions _ _ Hr). cbn. lra.
Defined.

(** X6: the [owner_equity] and [renter_portfolio] of a result, on an
    argument the constructor admits, are the [equity] and the
    [renter_portfolio] of the snapshot of the last month,
    [horizon_years * 12]. *)
Theorem terminal_values_of_last_snapshot
    (d : LocationFinancialDefaults) (assumptions : option ScenarioAssumptions)
    (r : ComparisonResult.t) :
  well_formed assumptions ->
  compare_scenarios d assumptions = Ok r ->
  exists s,
    snapshot_at (ComparisonResult.timeline r)
      (horizon_years (ComparisonResult.assumptions r) * 12) = Some s /\
    last (ComparisonResult.timeline r) s = s /\
    ComparisonResult.owner_equity r = MonthlySnapshot.equity s /\
    ComparisonResult.renter_portfolio r = MonthlySnapshot.renter_portfolio s.
Proof.
  intros Hwf H.
  apply compare_scenarios_fields in H
    as (a & am & im & Ha & _ & _ & -> & Hat & _).
  cbn [ComparisonResult.assumptions ComparisonResult.timeline
       ComparisonResult.owner_equity ComparisonResult.renter_portfolio] in *.
  apply (assumptions_or_default_Ok assumptions) in Ha; [| assumption].
  pose proof (months_of_constructed a Ha) as Hmonths.
  apply post_init_Ok in Ha as [Hh _].
  destruct (months_of a) as [| k] eqn:Ek; [lia |].
  exists (snapshot_of (horizon_years a * 12) (run d a am im (S k))).
  split; [| split; [| split; reflexivity]].
  - rewrite Hat by lia.
    replace (Z.to_nat (horizon_years a * 12)) with (S k) by lia.
    reflexivity.
  - unfold run. cbn [after]. rewrite body_timeline, last_last.
    replace (1 + Z.of_nat k)%Z with (horizon_years a * 12)%Z by lia.
    reflexivity.
Qed.

Lemma terminal_values_of_last_snapshot_witness :
  exists r s,
    compare_scenarios sample_defaults None = Ok r /\
    snapshot_at (ComparisonResult.timeline r) 360 = Some s /\
    ComparisonResult.owner_equity r = MonthlySnapshot.equity s /\
    ComparisonResult.renter_portfolio r = MonthlySnapshot.renter_portfolio s.
Proof.
  destruct (compare_scenarios_default_returns sample_defaults) as [r Hr].
  destruct (terminal_values_of_last_snapshot sample_defaults None r I Hr)
    as (s & Hs & _ & He & Hp).
  rewrite (compare_scenarios_default_assumptions _ _ Hr) in Hs.
  exists r, s. split; [exact Hr |]. split; [exact Hs |].
  split; [exact He | exact Hp].
Defined.

(** ** More on the payment and the schedule *)

Lemma annuity_ge_count (q : R) (n : nat) : 1 <= q -> INR n <= annuity q n.
Proof.
  intros Hq. induction n as [| n IH]; [cbn; lra |].
  rewrite S_INR. cbn [annuity].
  pose proof (pow_R1_Rle q n Hq). lra.
Qed.

Lemma annuity_le_count_pow (q : R) (n : nat) :
  1 <= q -> annuity q n <= INR n * q ^ n.
Proof.
  intros Hq. induction n as [| n IH]; [cbn; lra |].
  rewrite S_INR. cbn [annuity pow].
  pose proof (pow_R1_Rle q n Hq) as Hqn.
  pose proof (pos_INR n) as Hn.
  assert (H1 : 0 <= INR n * q ^ n * (q - 1))
    by (apply Rmult_le_pos; [apply Rmult_le_pos |]; lra).
  assert (H2 : 0 <= q ^ n * (q - 1)) by (apply Rmult_le_pos; lra).
  lra.
Qed.

Lemma monthly_mortgage_payment_zero
    (principal annual_rate_pct : R) (term_months : Z) :
  principal <= 0 \/ (term_months <= 0)%Z ->
  monthly_mortgage_payment principal annual_rate_pct term_months = 0.
Proof.
  intros H. unfold monthly_mortgage_payment.
  destruct (Rleb_spec principal 0); [reflexivity |].
  destruct (Z.leb_spec term_months 0); [reflexivity |].
  destruct H; [lra | lia].
Qed.

Lemma monthly_mortgage_payment_pos
    (principal annual_rate_pct : R) (term_months : Z) :
  0 < principal -> (0 < term_months)%Z ->
  0 < monthly_mortgage_payment principal annual_rate_pct term_months.
Proof.
  intros HP Hn. rewrite monthly_mortgage_payment_annuity by assumption.
  pose proof (annual_to_monthly_rate_nonneg annual_rate_pct) as Hr.
  apply Rdiv_lt_0_compat.
  - apply Rmult_lt_0_compat; [assumption | apply pow_lt; lra].
  - apply annuity_pos; [lra | lia].
Qed.

Section MoreAmortization.

Variable defaults : LocationFinancialDefaults.
Variables appreciation_monthly investment_monthly monthly_investment : R.

Hypothesis loan_positive : 0 < loan_amount defaults.
Hypothesis term_positive : (0 < loan_term_months defaults)%Z.

Local Abbreviation P := (loan_amount defaults).
Local Abbreviation r := (annual_to_monthly_rate (interest_rate defaults)).
Local Abbreviation q := (1 + r).
Local Abbreviation n := (Z.to_nat (loan_term_months defaults)).
Local Abbreviation payment :=
  (monthly_mortgage_payment (loan_amount defaults) (interest_rate defaults)
                            (loan_term_months defaults)).
Local Abbreviation state :=
  (after defaults payment r appreciation_monthly investment_monthly
         monthly_investment).
Local Abbreviation principal k :=
  (fst (amortize defaults payment r (balance (state k)) (1 + Z.of_nat k))).

(** Before the last payment something is still owed. *)
Lemma after_balance_outstanding (k : nat) :
  (k < n)%nat -> 0 < balance (state k).
Proof.
  intros Hk.
  pose proof (annual_to_monthly_rate_nonneg (interest_rate defaults)) as Hr.
  pose proof (schedule_annuity_pos defaults term_positive) as HS.
  rewrite after_balance_schedule by (assumption || lia).
  assert (Hlt : annuity q k < annuity q n) by (apply annuity_lt; lra || lia).
  apply Rdiv_lt_0_compat; [| assumption].
  apply Rmult_lt_0_compat; lra.
Qed.

(** The payment is the interest on the balance plus the principal paid. *)
Lemma after_payment_split (k : nat) :
  (k < n)%nat -> principal k + balance (state k) * r = payment.
Proof.
  intros Hk.
  pose proof (schedule_annuity_pos defaults term_positive) as HS.
  rewrite after_principal_payment by assumption.
  rewrite after_balance_schedule by (assumption || lia).
  rewrite (monthly_mortgage_payment_annuity P (interest_rate defaults)
             (loan_term_months defaults)) by assumption.
  pose proof (annuity_rate q n) as Hn. pose proof (annuity_rate q k) as Hk'.
  replace (q - 1) with r in Hn, Hk' by ring.
  replace (P * q ^ k / annuity q n +
           P * (annuity q n - annuity q k) / annuity q n * r)
    with (P * (q ^ k + (r * annuity q n - r * annuity q k)) / annuity q n)
    by (field; lra).
  rewrite Hn, Hk'. f_equal. ring.
Qed.

Lemma after_principal_pos (k : nat) : (k < n)%nat -> 0 < principal k.
Proof.
  intros Hk.
  pose proof (annual_to_monthly_rate_nonneg (interest_rate defaults)) as Hr.
  pose proof (schedule_annuity_pos defaults term_positive) as HS.
  rewrite after_principal_payment by assumption.
  apply Rdiv_lt_0_compat; [| assumption].
  apply Rmult_lt_0_compat; [assumption | apply pow_lt; lra].
Qed.

Lemma after_principal_grows (k : nat) :
  (S k < n)%nat -> principal (S k) = q * principal k.
Proof.
  intros Hk.
  pose proof (schedule_annuity_pos defaults term_positive) as HS.
  rewrite !after_principal_payment by (assumption || lia).
  cbn [pow]. field. lra.
Qed.

End MoreAmortization.

(** The snapshot of a month and the balance the month started with. *)
Lemma compare_scenarios_month
    (d : LocationFinancialDefaults) (assumptions : option ScenarioAssumptions)
    (r : ComparisonResult.t) :
  compare_scenarios d assumptions = Ok r ->
  exists a am im,
    ComparisonResult.assumptions r = a /\
    forall m, (1 <= m <= horizon_years a * 12)%Z ->
      snapshot_at (ComparisonResult.timeline r) m =
      Some (snapshot_of m (run d a am im (S (Z.to_nat (m - 1))))) /\
      balance_before d (ComparisonResult.timeline r) m =
      Some (balance (run d a am im (Z.to_nat (m - 1)))) /\
      m = (1 + Z.of_nat (Z.to_nat (m - 1)))%Z.
Proof.
  intros H.
  apply compare_scenarios_snapshot_at in H as (a & am & im & Ha & Hat).
  exists a, am, im. split; [exact Ha |].
  intros m Hm. split; [| split; [| lia]].
  - rewrite Hat by assumption. do 3 f_equal. lia.
  - unfold balance_before. destruct (Z.eqb_spec m 1) as [-> | Hne].
    + reflexivity.
    + rewrite Hat by lia. reflexivity.
Qed.

(** X7: [monthly_mortgage_payment] is never negative; for a positive
    principal and term it is more than the first month's interest
    [principal * r], at least the straight-line payment
    [principal / term_months], and at most that plus the first month's
    interest, [r] being [annual_to_monthly_rate annual_rate_pct]. *)
Theorem monthly_mortgage_payment_bounds
    (principal annual_rate_pct : R) (term_months : Z) :
  0 <= monthly_mortgage_payment principal annual_rate_pct term_months /\
  (0 < principal -> (0 < term_months)%Z ->
   let r := annual_to_monthly_rate annual_rate_pct in
   let payment :=
     monthly_mortgage_payment principal annual_rate_pct term_months in
   principal * r < payment /\
   principal / IZR term_months <= payment <=
   principal / IZR term_months + principal * r).
Proof.
  split.
  - destruct (Rle_lt_dec principal 0) as [HP | HP];
      [rewrite monthly_mortgage_payment_zero; [lra | now left] |].
    destruct (Z_le_gt_dec term_months 0) as [Hn | Hn];
      [rewrite monthly_mortgage_payment_zero; [lra | now right] |].
    apply Rlt_le, monthly_mortgage_payment_pos; [assumption | lia].
  - intros HP Hn r payment. subst payment.
    rewrite monthly_mortgage_payment_annuity by assumption. fold r.
    pose proof (annual_to_monthly_rate_nonneg annual_rate_pct) as Hr.
    fold r in Hr.
    set (n := Z.to_nat term_months).
    assert (HN : IZR term_months = INR n)
      by (subst n; rewrite INR_IZR_INZ, Z2Nat.id by lia; reflexivity).
    rewrite HN.
    assert (HNpos : 0 < INR n) by (rewrite <- HN; apply IZR_lt; lia).
    assert (HS : 0 < annuity (1 + r) n)
      by (apply annuity_pos; [lra | subst n; lia]).
    pose proof (annuity_rate (1 + r) n) as Hrate.
    replace (1 + r - 1) with r in Hrate by ring.
    pose proof (annuity_ge_count (1 + r) n ltac:(lra)) as Hge.
    pose proof (annuity_le_count_pow (1 + r) n ltac:(lra)) as Hle.
    pose proof (pow_lt (1 + r) n ltac:(lra)) as Hq.
    set (S := annuity (1 + r) n) in *. set (X := (1 + r) ^ n) in *.
    set (N := INR n) in *.
    split; [| split].
    + apply Rmult_lt_reg_r with S; [assumption |].
      replace (principal * X / S * S) with (principal * X) by (field; lra).
      replace (principal * r * S) with (principal * (r * S)) by ring.
      rewrite Hrate. nra.
    + apply Rmult_le_reg_r with (S * N);
        [apply Rmult_lt_0_compat; assumption |].
      replace (principal / N * (S * N)) with (principal * S)
        by (field; lra).
      replace (principal * X / S * (S * N)) with (principal * (N * X))
        by (field; lra).
      apply Rmult_le_compat_l; lra.
    + apply Rmult_le_reg_r with (S * N);
        [apply Rmult_lt_0_compat; assumption |].
      replace (principal * X / S * (S * N)) with (principal * (N * X))
        by (field; lra).
      replace ((principal / N + principal * r) * (S * N))
        with (principal * (S + N * (r * S))) by (field; lra).
      rewrite Hrate. apply Rmult_le_compat_l; lra.
Qed.

Lemma monthly_mortgage_payment_bounds_witness :
  300000 * annual_to_monthly_rate 6 < monthly_mortgage_payment 300000 6 360 /\
  300000 / IZR 360 <= monthly_mortgage_payment 300000 6 360 <=
  300000 / IZR 360 + 300000 * annual_to_monthly_rate 6.
Proof.
  apply (proj2 (monthly_mortgage_payment_bounds 300000 6 360));
    [lra | lia].
Defined.

(** X8: in the result of a run over a positive loan amount and term, with
    the arithmetic taken exactly, every month [m] of the term splits the
    mortgage payment into the interest on the balance the month starts
    with and a principal payment that is positive, at most that balance,
    and exactly what the balance goes down by. *)
Theorem payment_splits_into_interest_and_principal
    (d : LocationFinancialDefaults) (assumptions : option ScenarioAssumptions)
    (r : ComparisonResult.t) :
  compare_scenarios d assumptions = Ok r ->
  0 < loan_amount d -> (0 < loan_term_months d)%Z ->
  forall m,
    (1 <= m <= loan_term_months d)%Z ->
    (m <= horizon_years (ComparisonResult.assumptions r) * 12)%Z ->
    exists s b,
      snapshot_at (ComparisonResult.timeline r) m = Some s /\
      balance_before d (ComparisonResult.timeline r) m = Some b /\
      principal_payment d b m +
      b * annual_to_monthly_rate (interest_rate d) =
      monthly_mortgage_payment (loan_amount d) (interest_rate d)
        (loan_term_months d) /\
      0 < principal_payment d b m <= b /\
      MonthlySnapshot.loan_balance s = Some (b - principal_payment d b m).
Proof.
  intros H Hloan Hterm m Hm Hhorizon.
  apply compare_scenarios_month in H as (a & am & im & Ha & Hmonth).
  rewrite Ha in Hhorizon.
  destruct (Hmonth m ltac:(lia)) as (Hs & Hb & Hmk).
  set (k := Z.to_nat (m - 1)) in *.
  assert (Hk : (k < Z.to_nat (loan_term_months d))%nat) by (subst k; lia).
  clearbody k. subst m.
  exists (snapshot_of (1 + Z.of_nat k) (run d a am im (S k))),
         (balance (run d a am im k)).
  split; [exact Hs |]. split; [exact Hb |].
  unfold principal_payment, run.
  pose proof (after_payment_split d am im
                (median_income d / 12 * savings_rate_of_income a)
                Hloan Hterm k Hk) as Hsplit.
  pose proof (after_principal_pos d am im
                (median_income d / 12 * savings_rate_of_income a)
                Hloan Hterm k Hk) as Hpos.
  pose proof (after_balance_minus_principal d am im
                (median_income d / 12 * savings_rate_of_income a)
                Hloan Hterm k Hk) as Hminus.
  pose proof (after_balance_nonneg d
                (monthly_mortgage_payment (loan_amount d) (interest_rate d)
                   (loan_term_months d))
                (annual_to_monthly_rate (interest_rate d)) am im
                (median_income d / 12 * savings_rate_of_income a) (S k)
                ltac:(lra)) as Hnonneg.
  split; [exact Hsplit |]. split; [lra |].
  cbn [snapshot_of MonthlySnapshot.loan_balance]. unfold run.
  now rewrite Hminus.
Qed.

Lemma payment_splits_into_interest_and_principal_witness :
  exists r s b,
    compare_scenarios sample_defaults None = Ok r /\
    snapshot_at (ComparisonResult.timeline r) 1 = Some s /\
    balance_before sample_defaults (ComparisonResult.timeline r) 1 =
    Some b /\
    principal_payment sample_defaults b 1 +
    b * annual_to_monthly_rate 6 =
    monthly_mortgage_payment 300000 6 360.
Proof.
  destruct (compare_scenarios_default_returns sample_defaults) as [r Hr].
  destruct (payment_splits_into_interest_and_principal
              sample_defaults None r Hr) with (m := 1%Z)
    as (s & b & Hs & Hb & Hsplit & _);
    try (cbn [sample_defaults loan_amount loan_term_months]; lra || lia).
  { rewrite (compare_scenarios_default_assumptions _ _ Hr).
    cbn [the_default_assumptions horizon_years]. lia. }
  exists r, s, b. split; [exact Hr |]. split; [exact Hs |].
  split; [exact Hb | exact Hsplit].
Defined.

(** X9: in such a run the principal paid grows from each month of the term
    to the next by the factor [1 + monthly rate], while the payment stays
    the same: the interest share shrinks as the loan is paid down. *)
Theorem principal_grows_with_monthly_rate
    (d : LocationFinancialDefaults) (assumptions : option ScenarioAssumptions)
    (r : ComparisonResult.t) :
  compare_scenarios d assumptions = Ok r ->
  0 < loan_amount d -> (0 < loan_term_months d)%Z ->
  forall m,
    (1 <= m)%Z -> (m + 1 <= loan_term_months d)%Z ->
    (m + 1 <= horizon_years (ComparisonResult.assumptions r) * 12)%Z ->
    exists b b',
      balance_before d (ComparisonResult.timeline r) m = Some b /\
      balance_before d (ComparisonResult.timeline r) (m + 1) = Some b' /\
      principal_payment d b' (m + 1) =
      (1 + annual_to_monthly_rate (interest_rate d)) *
      principal_payment d b m.
Proof.
  intros H Hloan Hterm m Hm Hnext Hhorizon.
  apply compare_scenarios_month in H as (a & am & im & Ha & Hmonth).
  rewrite Ha in Hhorizon.
  destruct (Hmonth m ltac:(lia)) as (_ & Hb & Hmk).
  destruct (Hmonth (m + 1)%Z ltac:(lia)) as (_ & Hb' & Hmk').
  replace (Z.to_nat (m + 1 - 1)) with (S (Z.to_nat (m - 1))) in * by lia.
  set (k := Z.to_nat (m - 1)) in *.
  assert (Hk : (S k < Z.to_nat (loan_term_months d))%nat) by (subst k; lia).
  clearbody k. subst m.
  exists (balance (run d a am im k)), (balance (run d a am im (S k))).
  split; [exact Hb |]. split; [exact Hb' |].
  unfold principal_payment, run.
  replace (1 + Z.of_nat k + 1)%Z with (1 + Z.of_nat (S k))%Z by lia.
  now apply after_principal_grows.
Qed.

Lemma principal_grows_with_monthly_rate_witness :
  exists r b b',
    compare_scenarios sample_defaults None = Ok r /\
    balance_before sample_defaults (ComparisonResult.timeline r) 1 =
    Some b /\
    balance_before sample_defaults (ComparisonResult.timeline r) (1 + 1) =
    Some b' /\
    principal_payment sample_defaults b' (1 + 1) =
    (1 + annual_to_monthly_rate 6) * principal_payment sample_defaults b 1.
Proof.
  destruct (compare_scenarios_default_returns sample_defaults) as [r Hr].
  destruct (principal_grows_with_monthly_rate
              sample_defaults None r Hr) with (m := 1%Z)
    as (b & b' & Hb & Hb' & Hgrow);
    try (cbn [sample_defaults loan_amount loan_term_months]; lra || lia).
  { rewrite (compare_scenarios_default_assumptions _ _ Hr).
    cbn [the_default_assumptions horizon_years]. lia. }
  exists r, b, b'. split; [exact Hr |]. split; [exact Hb |].
  split; [exact Hb' | exact Hgrow].
Defined.

(** X10: in the result of a run over a positive loan amount and term, with
    the arithmetic taken exactly, the loan is not paid off early: every
    snapshot of a month before [loan_term_months] has a positive
    [loan_balance]. *)
Theorem loan_outstanding_before_term
    (d : LocationFinancialDefaults) (assumptions : option ScenarioAssumptions)
    (r : ComparisonResult.t) :
  compare_scenarios d assumptions = Ok r ->
  0 < loan_amount d -> (0 < loan_term_months d)%Z ->
  forall s, In s (ComparisonResult.timeline r) ->
    (MonthlySnapshot.month s < loan_term_months d)%Z ->
    exists b, MonthlySnapshot.loan_balance s = Some b /\ 0 < b.
Proof.
  intros H Hloan Hterm s Hs Hmonth.
  apply compare_scenarios_fields in H
    as (a & am & im & _ & _ & _ & _ & _ & Hin).
  destruct (Hin s Hs) as (m & Hm & ->).
  cbn [snapshot_of MonthlySnapshot.month] in Hmonth.
  eexists. cbn [snapshot_of MonthlySnapshot.loan_balance].
  split; [reflexivity |]. unfold run.
  apply after_balance_outstanding; [assumption .. | lia].
Qed.

Lemma loan_outstanding_before_term_witness :
  exists r,
    compare_scenarios sample_defaults None = Ok r /\
    forall s, In s (ComparisonResult.timeline r) ->
      (MonthlySnapshot.month s < 360)%Z ->
      exists b, MonthlySnapshot.loan_balance s = Some b /\ 0 < b.
Proof.
  destruct (compare_scenarios_default_returns sample_defaults) as [r Hr].
  exists r. split; [exact Hr |].
  apply (loan_outstanding_before_term sample_defaults None r Hr);
    cbn [sample_defaults loan_amount loan_term_months]; lra || lia.
Defined.

(** X11: in the result of every run a month past [loan_term_months] pays no
    principal and leaves the loan balance where the month before left it,
    paid off or not. *)
Theorem balance_frozen_after_term
    (d : LocationFinancialDefaults) (assumptions : option ScenarioAssumptions)
    (r : ComparisonResult.t) :
  compare_scenarios d assumptions = Ok r ->
  forall m,
    (1 <= m <= horizon_years (ComparisonResult.assumptions r) * 12)%Z ->
    (loan_term_months d < m)%Z ->
    exists s b,
      snapshot_at (ComparisonResult.timeline r) m = Some s /\
      balance_before d (ComparisonResult.timeline r) m = Some b /\
      principal_payment d b m = 0 /\
      MonthlySnapshot.loan_balance s = Some b.
Proof.
  intros H m Hm Hpast.
  apply compare_scenarios_month in H as (a & am & im & Ha & Hmonth).
  rewrite Ha in Hm.
  destruct (Hmonth m Hm) as (Hs & Hb & Hmk).
  set (k := Z.to_nat (m - 1)) in *. clearbody k. subst m.
  exists (snapshot_of (1 + Z.of_nat k) (run d a am im (S k))),
         (balance (run d a am im k)).
  split; [exact Hs |]. split; [exact Hb |]. split.
  - unfold principal_payment, amortize.
    destruct (Z.leb_spec (1 + Z.of_nat k) (loan_term_months d)); [lia |].
    rewrite andb_false_r. reflexivity.
  - cbn [snapshot_of MonthlySnapshot.loan_balance]. f_equal.
    unfold run. now apply after_balance_beyond_term.
Qed.

Lemma balance_frozen_after_term_witness :
  exists r s b,
    compare_scenarios interest_free_defaults None = Ok r /\
    snapshot_at (ComparisonResult.timeline r) 13 = Some s /\
    balance_before interest_free_defaults (ComparisonResult.timeline r) 13 =
    Some b /\
    principal_payment interest_free_defaults b 13 = 0 /\
    MonthlySnapshot.loan_balance s = Some b.
Proof.
  destruct (compare_scenarios_default_returns interest_free_defaults)
    as [r Hr].
  destruct (balance_frozen_after_term interest_free_defaults None r Hr 13)
    as (s & b & H).
  - rewrite (compare_scenarios_default_assumptions _ _ Hr).
    cbn [the_default_assumptions horizon_years]. lia.
  - cbn [interest_free_defaults loan_term_months]. lia.
  - exists r, s, b. split; [exact Hr | exact H].
Defined.

(** X12: a run over a loan amount or a term that is not positive charges
    the owner nothing for the mortgage, [owner_monthly_cost] being
    [owner_non_pi_costs], and never touches the balance: every snapshot has
    [loan_balance = loan_amount]. *)
Theorem no_loan_no_payment
    (d : LocationFinancialDefaults) (assumptions : option ScenarioAssumptions)
    (r : ComparisonResult.t) :
  compare_scenarios d assumptions = Ok r ->
  loan_amount d <= 0 \/ (loan_term_months d <= 0)%Z ->
  ComparisonResult.owner_monthly_cost r = owner_non_pi_costs d /\
  forall s, In s (ComparisonResult.timeline r) ->
    MonthlySnapshot.loan_balance s = Some (loan_amount d).
Proof.
  intros H Hnone.
  pose proof (monthly_mortgage_payment_zero (loan_amount d)
                (interest_rate d) (loan_term_months d) Hnone) as Hzero.
  apply compare_scenarios_fields in H
    as (a & am & im & _ & _ & _ & -> & _ & Hin).
  cbn [ComparisonResult.owner_monthly_cost ComparisonResult.timeline] in *.
  split; [rewrite Hzero; ring |].
  intros s Hs. destruct (Hin s Hs) as (m & Hm & ->).
  cbn [snapshot_of MonthlySnapshot.loan_balance]. f_equal.
  unfold run. apply after_balance_no_payment. rewrite Hzero. lra.
Qed.

Lemma no_loan_no_payment_witness :
  exists r,
    compare_scenarios negative_loan_defaults None = Ok r /\
    ComparisonResult.owner_monthly_cost r = 400 + 100 + 250 /\
    forall s, In s (ComparisonResult.timeline r) ->
      MonthlySnapshot.loan_balance s = Some (-1000).
Proof.
  destruct (compare_scenarios_default_returns negative_loan_defaults)
    as [r Hr].
  exists r. split; [exact Hr |].
  apply (no_loan_no_payment negative_loan_defaults None r Hr).
  left. cbn. lra.
Defined.

(** ** Equity, the verdict and the caller's test *)

(** X13: in the result of a run over [0 <= loan_amount <= property_value]
    and an annual appreciation rate that is not negative, the owner is never
    under water: in every snapshot [equity] is exactly
    [home_value - loan_balance], and it is at least the down payment. *)
Theorem equity_is_home_value_minus_balance
    (d : LocationFinancialDefaults) (assumptions : option ScenarioAssumptions)
    (r : ComparisonResult.t) :
  compare_scenarios d assumptions = Ok r ->
  0 <= loan_amount d <= property_value d ->
  0 <= appreciation_rate (ComparisonResult.assumptions r) ->
  forall s, In s (ComparisonResult.timeline r) ->
    exists v b,
      MonthlySnapshot.home_value s = Some v /\
      MonthlySnapshot.loan_balance s = Some b /\
      MonthlySnapshot.equity s = Some (v - b) /\
      down_payment d <= v - b.
Proof.
  intros H [Hloan Hvalue] Hrate s Hs.
  apply compare_scenarios_fields in H
    as (a & am & im & _ & Ham & _ & -> & _ & Hin).
  cbn [ComparisonResult.assumptions] in Hrate.
  destruct (Hin s Hs) as (m & Hm & ->).
  pose proof (annual_to_monthly_growth_nonneg _ _ Hrate Ham) as Hg.
  set (st := run d a am im (Z.to_nat m)).
  assert (Hv : property_value d <= home_value st)
    by (subst st; unfold run; apply after_home_value_ge; lra).
  assert (Hb : balance st <= loan_amount d)
    by (subst st; unfold run; apply after_balance_le_loan).
  assert (Hdown : down_payment d = property_value d - loan_amount d)
    by (unfold down_payment; apply max_zero_id; lra).
  exists (home_value st), (balance st).
  cbn [snapshot_of MonthlySnapshot.home_value MonthlySnapshot.loan_balance
       MonthlySnapshot.equity].
  repeat split; [| lra].
  f_equal. unfold equity_of. apply max_zero_id. lra.
Qed.

Lemma equity_is_home_value_minus_balance_witness :
  exists r,
    compare_scenarios sample_defaults None = Ok r /\
    forall s, In s (ComparisonResult.timeline r) ->
      exists v b,
        MonthlySnapshot.home_value s = Some v /\
        MonthlySnapshot.loan_balance s = Some b /\
        MonthlySnapshot.equity s = Some (v - b) /\
        down_payment sample_defaults <= v - b.
Proof.
  destruct (compare_scenarios_default_returns sample_defaults) as [r Hr].
  exists r. split; [exact Hr |].
  apply (equity_is_home_value_minus_balance sample_defaults None r Hr).
  - cbn. lra.
  - rewrite (compare_scenarios_default_assumptions _ _ Hr). cbn. lra.
Defined.

(** X14: in the result of a run over a property value and a loan amount
    that are not negative, no snapshot shows more equity than home value. *)
Theorem equity_at_most_home_value
    (d : LocationFinancialDefaults) (assumptions : option ScenarioAssumptions)
    (r : ComparisonResult.t) :
  compare_scenarios d assumptions = Ok r ->
  0 <= property_value d -> 0 <= loan_amount d ->
  forall s, In s (ComparisonResult.timeline r) ->
    exists v e,
      MonthlySnapshot.home_value s = Some v /\
      MonthlySnapshot.equity s = Some e /\ e <= v.
Proof.
  intros H Hvalue Hloan s Hs.
  apply compare_scenarios_fields in H
    as (a & am & im & _ & Ham & _ & _ & _ & Hin).
  destruct (Hin s Hs) as (m & Hm & ->).
  pose proof (annual_to_monthly_growth_factor_pos _ _ Ham) as Hg.
  set (st := run d a am im (Z.to_nat m)).
  assert (Hv : 0 <= home_value st)
    by (subst st; unfold run; apply after_home_value_nonneg; lra).
  assert (Hb : 0 <= balance st)
    by (subst st; unfold run; now apply after_balance_nonneg).
  exists (home_value st), (equity_of st).
  cbn [snapshot_of MonthlySnapshot.home_value MonthlySnapshot.equity].
  repeat split. unfold equity_of, Builtins.max. cmp_cases.
Qed.

Lemma equity_at_most_home_value_witness :
  exists r,
    compare_scenarios sample_defaults None = Ok r /\
    forall s, In s (ComparisonResult.timeline r) ->
      exists v e,
        MonthlySnapshot.home_value s = Some v /\
        MonthlySnapshot.equity s = Some e /\ e <= v.
Proof.
  destruct (compare_scenarios_default_returns sample_defaults) as [r Hr].
  exists r. split; [exact Hr |].
  apply (equity_at_most_home_value sample_defaults None r Hr); cbn; lra.
Defined.

Lemma better_option_of_values (r : ComparisonResult.t) (e p : R) :
  ComparisonResult.owner_equity r = Some e ->
  ComparisonResult.renter_portfolio r = Some p ->
  (p < e -> better_option r = Some "owning"%string) /\
  (e < p -> better_option r = Some "renting"%string) /\
  (e = p -> better_option r = Some "tie"%string).
Proof.
  intros He Hp. unfold better_option. rewrite He, Hp.
  repeat split; intros Hcmp; cmp_cases; reflexivity.
Qed.

(** X15: on a result of [compare_scenarios], for an argument the
    constructor admits, [better_option] returns, and it is ["owning"]
    whenever [break_even_month] is unset: a verdict of ["renting"] or
    ["tie"] comes with a break-even month. *)
Theorem better_option_and_break_even
    (d : LocationFinancialDefaults) (assumptions : option ScenarioAssumptions)
    (r : ComparisonResult.t) :
  well_formed assumptions ->
  compare_scenarios d assumptions = Ok r ->
  (exists verdict, better_option r = Some verdict) /\
  (ComparisonResult.break_even_month r = None ->
   better_option r = Some "owning"%string) /\
  (better_option r <> Some "owning"%string ->
   exists m, ComparisonResult.break_even_month r = Some m).
Proof.
  intros Hwf H.
  apply compare_scenarios_fields in H
    as (a & am & im & Ha & _ & _ & -> & _ & _).
  apply (assumptions_or_default_Ok assumptions) in Ha; [| assumption].
  pose proof (months_of_constructed a Ha) as Hmonths.
  apply post_init_Ok in Ha as [Hh _].
  destruct (months_of a) as [| k] eqn:Ek; [lia |].
  set (e := equity_of (run d a am im (S k))).
  set (p := portfolio (run d a am im (S k))).
  match goal with
  | |- context [better_option ?res] => set (result := res)
  end.
  destruct (better_option_of_values result e p eq_refl eq_refl)
    as (Hown & Hrent & Htie).
  assert (Hnone : ComparisonResult.break_even_month result = None ->
                  better_option result = Some "owning"%string).
  { cbn [result ComparisonResult.break_even_month]. intros Hbe.
    apply Hown. subst e p.
    pose proof (after_break_even d
      (monthly_mortgage_payment (loan_amount d) (interest_rate d)
         (loan_term_months d))
      (annual_to_monthly_rate (interest_rate d)) am im
      (median_income d / 12 * savings_rate_of_income a) (S k)) as Hall.
    fold (run d a am im (S k)) in Hall. rewrite Hbe in Hall.
    apply (Hall k). lia. }
  split; [| split].
  - destruct (Rtotal_order e p) as [Hlt | [Heq | Hgt]]; eauto.
  - exact Hnone.
  - intros Hnot.
    destruct (ComparisonResult.break_even_month result) as [m |] eqn:Hbe;
      [eauto | exfalso; apply Hnot, Hnone; reflexivity].
Qed.

Lemma better_option_and_break_even_witness :
  exists r verdict,
    compare_scenarios sample_defaults None = Ok r /\
    better_option r = Some verdict.
Proof.
  destruct (compare_scenarios_default_returns sample_defaults) as [r Hr].
  destruct (better_option_and_break_even sample_defaults None r I Hr)
    as ((verdict & Hv) & _).
  exists r, verdict. split; [exact Hr | exact Hv].
Defined.

(** X16: when both terminal values are set [better_option] gives a
    verdict, exactly one of three: ["owning"] when the owner's equity is the
    greater, ["renting"] when the renter's portfolio is, ["tie"] when they
    are equal; and exchanging the two values exchanges ["owning"] and
    ["renting"] and keeps ["tie"]. *)
Theorem better_option_exchanged (r : ComparisonResult.t) :
  (forall e p,
     ComparisonResult.owner_equity r = Some e ->
     ComparisonResult.renter_portfolio r = Some p ->
     (exists verdict, better_option r = Some verdict) /\
     (better_option r = Some "owning"%string <-> p < e) /\
     (better_option r = Some "renting"%string <-> e < p) /\
     (better_option r = Some "tie"%string <-> e = p)) /\
  (better_option r = Some "owning"%string <->
   better_option (exchanged r) = Some "renting"%string) /\
  (better_option r = Some "renting"%string <->
   better_option (exchanged r) = Some "owning"%string) /\
  (better_option r = Some "tie"%string <->
   better_option (exchanged r) = Some "tie"%string) /\
  (better_option r = None <-> better_option (exchanged r) = None) /\
  (forall verdict, better_option r = Some verdict ->
     verdict = "owning"%string \/ verdict = "renting"%string \/
     verdict = "tie"%string).
Proof.
  split.
  { intros e p He Hp.
    destruct (better_option_of_values r e p He Hp) as (Hown & Hrent & Htie).
    destruct (Rtotal_order e p) as [Hlt | [Heq | Hgt]].
    - rewrite (Hrent Hlt). split; [eauto |].
      repeat split; intros; try discriminate; try reflexivity; lra.
    - rewrite (Htie Heq). split; [eauto |].
      repeat split; intros; try discriminate; try reflexivity;
        try assumption; lra.
    - rewrite (Hown Hgt). split; [eauto |].
      repeat split; intros; try discriminate; try reflexivity; lra. }
  destruct (ComparisonResult.owner_equity r) as [e |] eqn:He;
    [destruct (ComparisonResult.renter_portfolio r) as [p |] eqn:Hp |].
  - destruct (better_option_of_values r e p He Hp) as (Hown & Hrent & Htie).
    destruct (better_option_of_values (exchanged r) p e Hp He)
      as (Hown' & Hrent' & Htie').
    destruct (Rtotal_order e p) as [Hlt | [Heq | Hgt]].
    + rewrite (Hrent Hlt), (Hown' Hlt).
      repeat split; intros; try discriminate; try reflexivity.
      injection H as <-. auto.
    + rewrite (Htie Heq), (Htie' (eq_sym Heq)).
      repeat split; intros; try discriminate; try reflexivity.
      injection H as <-. auto.
    + rewrite (Hown Hgt), (Hrent' Hgt).
      repeat split; intros; try discriminate; try reflexivity.
      injection H as <-. auto.
  - unfold better_option, exchanged.
    cbn [ComparisonResult.owner_equity ComparisonResult.renter_portfolio].
    rewrite He, Hp.
    repeat split; intros; try discriminate; try reflexivity.
  - unfold better_option, exchanged.
    cbn [ComparisonResult.owner_equity ComparisonResult.renter_portfolio].
    rewrite He. destruct (ComparisonResult.renter_portfolio r);
      repeat split; intros; try discriminate; try reflexivity.
Qed.

Lemma better_option_exchanged_witness :
  better_option
    (ComparisonResult.mk sample_defaults the_default_assumptions 2250 2100
       (Some 90000) (Some 40000) None []) =
  Some "owning"%string /\
  better_option
    (exchanged
       (ComparisonResult.mk sample_defaults the_default_assumptions 2250 2100
          (Some 90000) (Some 40000) None [])) =
  Some "renting"%string.
Proof.
  pose proof (better_option_exchanged
                (ComparisonResult.mk sample_defaults the_default_assumptions
                   2250 2100 (Some 90000) (Some 40000) None []))
    as (Hvalues & Hexchanged & _).
  destruct (Hvalues 90000 40000 eq_refl eq_refl) as (_ & Hown & _).
  assert (H : better_option
                (ComparisonResult.mk sample_defaults the_default_assumptions
                   2250 2100 (Some 90000) (Some 40000) None []) =
              Some "owning"%string) by (apply Hown; lra).
  split; [exact H | apply Hexchanged; exact H].
Defined.

(** X17: a renter who saves nothing never breaks even against an owner who
    starts with equity: in the result of a run with a zero median income or
    savings rate, [0 <= loan_amount < property_value] and an annual
    appreciation rate that is not negative, every snapshot has a
    [renter_portfolio] of [0] and [break_even_month] is unset. *)
Theorem no_savings_no_break_even
    (d : LocationFinancialDefaults) (assumptions : option ScenarioAssumptions)
    (r : ComparisonResult.t) :
  compare_scenarios d assumptions = Ok r ->
  median_income d = 0 \/
  savings_rate_of_income (ComparisonResult.assumptions r) = 0 ->
  0 <= loan_amount d < property_value d ->
  0 <= appreciation_rate (ComparisonResult.assumptions r) ->
  ComparisonResult.break_even_month r = None /\
  forall s, In s (ComparisonResult.timeline r) ->
    MonthlySnapshot.renter_portfolio s = Some 0.
Proof.
  intros H Hnone [Hloan Hvalue] Hrate.
  apply compare_scenarios_fields in H
    as (a & am & im & _ & Ham & _ & -> & _ & Hin).
  cbn [ComparisonResult.assumptions ComparisonResult.break_even_month
       ComparisonResult.timeline] in *.
  pose proof (annual_to_monthly_growth_nonneg _ _ Hrate Ham) as Hg.
  assert (Hc : median_income d / 12 * savings_rate_of_income a = 0)
    by (destruct Hnone as [-> | ->]; lra).
  assert (Hp : forall k, portfolio (run d a am im k) = 0).
  { intros k. unfold run. rewrite after_portfolio_closed, Hc. ring. }
  assert (He : forall k, 0 < equity_of (run d a am im k)).
  { intros k. unfold equity_of.
    assert (Hv : property_value d <= home_value (run d a am im k))
      by (unfold run; apply after_home_value_ge; lra).
    assert (Hb : balance (run d a am im k) <= loan_amount d)
      by (unfold run; apply after_balance_le_loan).
    rewrite max_zero_id; lra. }
  split.
  - pose proof (after_break_even d
      (monthly_mortgage_payment (loan_amount d) (interest_rate d)
         (loan_term_months d))
      (annual_to_monthly_rate (interest_rate d)) am im
      (median_income d / 12 * savings_rate_of_income a) (months_of a))
      as Hall.
    fold (run d a am im (months_of a)) in Hall.
    destruct (break_even (run d a am im (months_of a))) as [m |];
      [| reflexivity].
    destruct Hall as (j & _ & _ & Hcross & _).
    fold (run d a am im (S j)) in Hcross.
    rewrite Hp in Hcross. pose proof (He (S j)). lra.
  - intros s Hs. destruct (Hin s Hs) as (m & Hm & ->).
    cbn [snapshot_of MonthlySnapshot.renter_portfolio]. now rewrite Hp.
Qed.

Lemma no_savings_no_break_even_witness :
  exists r,
    compare_scenarios sample_defaults (Some no_savings) = Ok r /\
    ComparisonResult.break_even_month r = None.
Proof.
  destruct (compare_scenarios_returns sample_defaults (Some no_savings)
              no_savings eq_refl) as [r Hr]; [cbn; lra | cbn; lra |].
  exists r. split; [exact Hr |].
  assert (Ha : ComparisonResult.assumptions r = no_savings).
  { destruct (compare_scenarios_Ok _ _ _ Hr)
      as (a & _ & _ & Ha & _ & _ & _ & -> & _).
    cbn in Ha. now injection Ha as <-. }
  apply (no_savings_no_break_even sample_defaults (Some no_savings) r Hr).
  - right. rewrite Ha. reflexivity.
  - cbn. lra.
  - rewrite Ha. cbn. lra.
Defined.

(** X18: a [break_even_month] that is set is a month of the timeline, [1]
    at the least, so the test [if result.break_even_month:] of [cli.run]
    succeeds exactly when a break-even month was found. *)
Theorem break_even_month_is_truthy
    (d : LocationFinancialDefaults) (assumptions : option ScenarioAssumptions)
    (r : ComparisonResult.t) :
  compare_scenarios d assumptions = Ok r ->
  (forall m, ComparisonResult.break_even_month r = Some m ->
     (1 <= m <= Z.of_nat (List.length (ComparisonResult.timeline r)))%Z) /\
  (truthy (ComparisonResult.break_even_month r) = true <->
   ComparisonResult.break_even_month r <> None).
Proof.
  intros H.
  apply compare_scenarios_timeline in H
    as (a & am & im & _ & _ & _ & _ & Hlen & _ & Hbe).
  assert (Hrange : forall m,
            ComparisonResult.break_even_month r = Some m ->
            (1 <= m <= Z.of_nat (List.length (ComparisonResult.timeline r)))%Z).
  { intros m Hm. rewrite Hlen. rewrite Hbe in Hm.
    pose proof (after_break_even d
      (monthly_mortgage_payment (loan_amount d) (interest_rate d)
         (loan_term_months d))
      (annual_to_monthly_rate (interest_rate d)) am im
      (median_income d / 12 * savings_rate_of_income a) (months_of a))
      as Hall.
    fold (run d a am im (months_of a)) in Hall. rewrite Hm in Hall.
    destruct Hall as (j & Hj & -> & _). lia. }
  split; [exact Hrange |].
  destruct (ComparisonResult.break_even_month r) as [m |] eqn:Hm; cbn.
  - pose proof (Hrange m eq_refl) as Hr.
    destruct (Z.eqb_spec m 0); [lia |]. cbn. split; congruence.
  - split; [discriminate | congruence].
Qed.

Lemma break_even_month_is_truthy_witness :
  exists r,
    compare_scenarios sample_defaults None = Ok r /\
    (truthy (ComparisonResult.break_even_month r) = true <->
     ComparisonResult.break_even_month r <> None).
Proof.
  destruct (compare_scenarios_default_returns sample_defaults) as [r Hr].
  exists r. split; [exact Hr |].
  exact (proj2 (break_even_month_is_truthy sample_defaults None r Hr)).
Defined.

(** ** Arguments at the edges *)

(** X19: on doubles, a call of [compare_scenarios] without assumptions
    runs as on [ScenarioAssumptions()]: neither the constructor nor the two
    growth conversions raise, so the call raises exactly when
    [monthly_mortgage_payment] does on the loan of the defaults, with its
    exception, and otherwise returns that instance, the payment plus
    [owner_non_pi_costs] as the owner's monthly cost, and 360 snapshots. *)
Theorem omitted_assumptions_run
    (pow : float -> float -> float)
    (d : Binary64.LocationFinancialDefaults) :
  let payment :=
    Binary64.monthly_mortgage_payment pow (Binary64.loan_amount d)
      (Binary64.interest_rate d) (Binary64.loan_term_months d) in
  Binary64.compare_scenarios pow d None =
  Binary64.compare_scenarios pow d (Some Binary64.the_default_assumptions)
  /\
  (forall e, payment = Raise e ->
     Binary64.compare_scenarios pow d None = Raise e) /\
  (forall p, payment = Ok p ->
     exists r,
       Binary64.compare_scenarios pow d None = Ok r /\
       Binary64.ComparisonResult.defaults r = d /\
       Binary64.ComparisonResult.assumptions r =
       Binary64.the_default_assumptions /\
       Binary64.ComparisonResult.owner_monthly_cost r =
       (p + Binary64.owner_non_pi_costs d)%float /\
       List.length (Binary64.ComparisonResult.timeline r) = 360%nat).
Proof.
  intros payment.
  destruct (binary64_default_run pow d) as (Hdefault & (am & Ham) & im & Him).
  split; [exact Hdefault |]. rewrite Hdefault.
  unfold Binary64.compare_scenarios. cbn [bind]. fold payment.
  split.
  - intros e ->. reflexivity.
  - intros p ->. rewrite Ham, Him. cbn [bind].
    eexists. split; [reflexivity |].
    cbn [Binary64.ComparisonResult.defaults
         Binary64.ComparisonResult.assumptions
         Binary64.ComparisonResult.owner_monthly_cost
         Binary64.ComparisonResult.timeline].
    split; [reflexivity |]. split; [reflexivity |]. split; [reflexivity |].
    rewrite binary64_timeline_length. reflexivity.
Qed.

Lemma omitted_assumptions_run_witness :
  exists r,
    Binary64.compare_scenarios pow_at_one Binary64.ten_month_loan None =
    Ok r /\
    List.length (Binary64.ComparisonResult.timeline r) = 360%nat.
Proof.
  destruct (proj2 (proj2 (omitted_assumptions_run pow_at_one
                            Binary64.ten_month_loan))
              (1 / 10)%float) as (r & Hr & _ & _ & _ & Hlen).
  - vm_compute. reflexivity.
  - exists r. split; [exact Hr | exact Hlen].
Defined.

(** X20: [down_payment] is never negative and covers at least the part of
    the property value the loan does not; [loan_to_value] is [0] for a
    property value of [0], where the code does not divide; for
    [loan_amount <= property_value] the down payment is exactly
    [property_value - loan_amount]; and, with the arithmetic taken exactly
    and a positive property value, the two then agree:
    [loan_to_value <= 1] and
    [down_payment = property_value * (1 - loan_to_value)], an identity that
    rounding breaks on doubles. *)
Theorem down_payment_and_loan_to_value (d : LocationFinancialDefaults) :
  0 <= down_payment d /\
  property_value d - loan_amount d <= down_payment d /\
  (property_value d = 0 -> loan_to_value d = 0) /\
  (loan_amount d <= property_value d ->
   down_payment d = property_value d - loan_amount d) /\
  (0 < property_value d -> loan_amount d <= property_value d ->
   loan_to_value d <= 1 /\
   down_payment d = property_value d * (1 - loan_to_value d)).
Proof.
  unfold down_payment, loan_to_value, Builtins.max.
  split; [cmp_cases |]. split; [cmp_cases |]. split; [| split].
  - intros Hzero. destruct (Reqb_spec (property_value d) 0); [reflexivity |].
    contradiction.
  - intros Hle.
    destruct (Rgtb_spec 0 (property_value d - loan_amount d)); lra.
  - intros Hpos Hle.
    destruct (Reqb_spec (property_value d) 0); [lra |].
    destruct (Rgtb_spec 0 (property_value d - loan_amount d)); [lra |].
    split.
    + apply Rmult_le_reg_r with (property_value d); [assumption |].
      unfold Rdiv. rewrite Rmult_assoc, Rinv_l by assumption. lra.
    + field. assumption.
Qed.

Lemma down_payment_and_loan_to_value_witness :
  down_payment sample_defaults = 375000 - 300000 /\
  loan_to_value sample_defaults <= 1 /\
  down_payment sample_defaults =
  375000 * (1 - loan_to_value sample_defaults).
Proof.
  pose proof (down_payment_and_loan_to_value sample_defaults)
    as (_ & _ & _ & Hdown & Hratio).
  split; [apply Hdown; cbn; lra | apply Hratio; cbn; lra].
Defined.

(** X21: the defensive path of the finalization: on an instance whose
    [horizon_years] is not positive the loop does not run, and a call that
    returns has an empty timeline, both terminal values [0.0], no break-even
    month and the verdict ["tie"]. *)
Theorem zero_horizon_result
    (d : LocationFinancialDefaults) (a : ScenarioAssumptions)
    (r : ComparisonResult.t) :
  compare_scenarios d (Some a) = Ok r ->
  (horizon_years a <= 0)%Z ->
  ComparisonResult.timeline r = [] /\
  ComparisonResult.owner_equity r = Some 0 /\
  ComparisonResult.renter_portfolio r = Some 0 /\
  ComparisonResult.break_even_month r = None /\
  better_option r = Some "tie"%string.
Proof.
  intros H Hh.
  apply compare_scenarios_fields in H
    as (a' & am & im & Ha & _ & _ & -> & _ & _).
  cbn in Ha. injection Ha as <-.
  assert (Hmonths : months_of a = 0%nat) by (unfold months_of; lia).
  rewrite Hmonths. unfold better_option. cbn.
  repeat split. cmp_cases; reflexivity.
Qed.

Lemma zero_horizon_result_witness :
  exists r,
    compare_scenarios sample_defaults (Some zero_horizon) = Ok r /\
    ComparisonResult.timeline r = [] /\
    better_option r = Some "tie"%string.
Proof.
  destruct (compare_scenarios_returns sample_defaults (Some zero_horizon)
              zero_horizon eq_refl) as [r Hr]; [cbn; lra | cbn; lra |].
  exists r. split; [exact Hr |].
  destruct (zero_horizon_result sample_defaults zero_horizon r Hr)
    as (Htl & _ & _ & _ & Hv); [cbn; lia |].
  split; [exact Htl | exact Hv].
Defined.

(** ** Binary64: a division by zero *)

(** X22: on doubles, a positive annual rate so small that the monthly rate
    does not change [1.0] makes [monthly_mortgage_payment] divide by zero:
    with [1.0 ** y = 1.0] the discount is [1.0], and the call raises
    [ZeroDivisionError] instead of falling back to the straight-line
    payment; so does [compare_scenarios], before its loop. *)
Theorem binary64_tiny_rate_divides_by_zero
    (pow : float -> float -> float)
    (d : Binary64.LocationFinancialDefaults)
    (a : Binary64.ScenarioAssumptions) :
  let monthly_rate := (Binary64.interest_rate d / 100 / 12)%float in
  (forall y, pow 1%float y = 1%float) ->
  PrimFloat.leb (Binary64.loan_amount d) 0 = false ->
  (0 < Binary64.loan_term_months d)%Z ->
  PrimFloat.leb (Binary64.interest_rate d) 0 = false ->
  PrimFloat.eqb monthly_rate 0 = false ->
  (1 + monthly_rate)%float = 1%float ->
  Binary64.monthly_mortgage_payment pow (Binary64.loan_amount d)
    (Binary64.interest_rate d) (Binary64.loan_term_months d) =
  Raise (ZeroDivisionError "float division by zero") /\
  Binary64.compare_scenarios pow d (Some a) =
  Raise (ZeroDivisionError "float division by zero").
Proof.
  intros monthly_rate Hpow Hloan Hterm Hrate Hnonzero Hone.
  assert (Hpay : Binary64.monthly_mortgage_payment pow
                   (Binary64.loan_amount d) (Binary64.interest_rate d)
                   (Binary64.loan_term_months d) =
                 Raise (ZeroDivisionError "float division by zero")).
  { unfold Binary64.monthly_mortgage_payment, Binary64.annual_to_monthly_rate.
    rewrite Hloan, Hrate.
    destruct (Z.leb_spec (Binary64.loan_term_months d) 0); [lia |].
    cbn [orb]. fold monthly_rate. rewrite Hnonzero, Hone, Hpow.
    reflexivity. }
  split; [exact Hpay |].
  unfold Binary64.compare_scenarios. cbn [bind]. rewrite Hpay. reflexivity.
Qed.

Lemma binary64_tiny_rate_divides_by_zero_witness :
  Binary64.monthly_mortgage_payment pow_at_one 300000 0x1.203af9ee75616p-50
    360 =
  Raise (ZeroDivisionError "float division by zero").
Proof.
  refine (proj1 (binary64_tiny_rate_divides_by_zero pow_at_one
            {| Binary64.cbsa := "31080";
               Binary64.name := "Los Angeles-Long Beach-Anaheim, CA";
               Binary64.median_income := 84000;
               Binary64.median_rent := 2100;
               Binary64.property_value := 375000;
               Binary64.loan_amount := 300000;
               Binary64.interest_rate := 0x1.203af9ee75616p-50;
               Binary64.loan_term_months := 360;
               Binary64.monthly_taxes := 400;
               Binary64.monthly_insurance := 100;
               Binary64.monthly_utilities := 250 |}
            Binary64.one_year _ _ _ _ _ _)).
  - intros y. reflexivity.
  - vm_compute. reflexivity.
  - cbn. lia.
  - vm_compute. reflexivity.
  - vm_compute. reflexivity.
  - vm_compute. reflexivity.
Defined.

(** ** data_sources.py: from the responses to the defaults *)

Section DataSourcesFacts.

Variable parse_float : string -> option R.

Local Abbreviation to_float := (DataSources._to_float parse_float).
Local Abbreviation figure := (DataSources.figure parse_float).
Local Abbreviation convertible := (DataSources.convertible parse_float).

Lemma to_float_convertible (header values : list DataSources.cell)
    (column : string) :
  convertible header values column ->
  exists raw,
    to_float (DataSources.row_get header values column) = inr raw /\
    match raw with Some x => x | None => 0 end = figure header values column.
Proof.
  unfold DataSources.convertible, DataSources.figure, DataSources._to_float.
  destruct (DataSources.row_get header values column) as [s |];
    [| intros _; exists None; split; reflexivity].
  destruct (String.eqb_spec s "") as [-> | Hne1];
    [intros _; exists None; split; reflexivity |].
  destruct (String.eqb_spec s "null") as [-> | Hne2];
    [intros _; exists None; split; reflexivity |].
  cbn [orb]. intros [H | [H | H]]; try contradiction.
  destruct (parse_float s) as [x |]; [| contradiction].
  exists (Some x). split; reflexivity.
Qed.

Lemma to_float_not_convertible (header values : list DataSources.cell)
    (column : string) :
  ~ convertible header values column ->
  exists s,
    DataSources.row_get header values column = Some s /\
    to_float (DataSources.row_get header values column) =
    inl (DataSources.ValueError
           ("Could not convert ACS value '" ++ s ++ "' to float")).
Proof.
  unfold DataSources.convertible, DataSources._to_float.
  destruct (DataSources.row_get header values column) as [s |];
    [| intros H; exfalso; apply H; exact I].
  intros H. exists s. split; [reflexivity |].
  destruct (String.eqb_spec s "") as [-> | Hne1]; [exfalso; auto |].
  destruct (String.eqb_spec s "null") as [-> | Hne2]; [exfalso; auto |].
  cbn [orb]. destruct (parse_float s) as [x |]; [| reflexivity].
  exfalso. apply H. right. right. discriminate.
Qed.

(** The entry the loop stores for a specification of [ACS_METRICS]. *)
Local Abbreviation entry header values :=
  (fun spec : string * (string * R) =>
     (fst spec,
      figure header values (fst (snd spec)) /
      (if snd (snd spec) =? 0 then 1 else snd (snd spec)))).

Lemma metrics_loop_convertible (header values : list DataSources.cell)
    (specs : list (string * (string * R))) (acc : list (string * R)) :
  Forall (fun spec => convertible header values (fst (snd spec))) specs ->
  DataSources.metrics_loop parse_float header values specs acc =
  inr (acc ++ map (entry header values) specs).
Proof.
  intros Hall. revert acc.
  induction Hall as [| [key [column dv]] specs Hc Hall IH]; intros acc.
  - cbn. now rewrite app_nil_r.
  - cbn [DataSources.metrics_loop fst snd] in *.
    destruct (to_float_convertible header values column Hc)
      as (raw & -> & Hraw).
    cbn [DataSources.and_then]. rewrite IH, <- app_assoc. cbn [map app].
    do 4 f_equal. cbn [fst snd]. rewrite <- Hraw.
    destruct raw; [reflexivity | unfold Rdiv; ring].
Qed.

Lemma metrics_loop_raises (header values : list DataSources.cell)
    (specs : list (string * (string * R))) (acc : list (string * R)) :
  ~ Forall (fun spec => convertible header values (fst (snd spec))) specs ->
  exists s,
    DataSources.metrics_loop parse_float header values specs acc =
    inl (DataSources.ValueError
           ("Could not convert ACS value '" ++ s ++ "' to float")).
Proof.
  revert acc. induction specs as [| [key [column dv]] specs IH];
    intros acc Hnot.
  - exfalso. apply Hnot. constructor.
  - cbn [DataSources.metrics_loop].
    destruct (DataSources.row_get header values column) as [c |] eqn:Hcell.
    + destruct (String.eqb_spec c "") as [E1 | E1];
        [| destruct (String.eqb_spec c "null") as [E2 | E2];
           [| destruct (parse_float c) as [x |] eqn:Hparse]].
      4:{ exists c. unfold DataSources._to_float.
          destruct (String.eqb_spec c ""); [contradiction |].
          destruct (String.eqb_spec c "null"); [contradiction |].
          cbn [orb]. rewrite Hparse. reflexivity. }
      all: assert (Hc : convertible header values column)
        by (unfold DataSources.convertible; rewrite Hcell;
            first [now left | now (right; left)
                  | right; right; rewrite Hparse; discriminate]).
      all: destruct (to_float_convertible header values column Hc)
        as (raw & Hraw & _); rewrite Hcell in Hraw; rewrite Hraw;
        cbn [DataSources.and_then]; apply IH; intros Hall; apply Hnot;
        constructor; assumption.
    + assert (Hc : convertible header values column)
        by (unfold DataSources.convertible; now rewrite Hcell).
      destruct (to_float_convertible header values column Hc)
        as (raw & Hraw & _). rewrite Hcell in Hraw. rewrite Hraw.
      cbn [DataSources.and_then]. apply IH. intros Hall. apply Hnot.
      constructor; assumption.
Qed.

Lemma to_float_returns (header values : list DataSources.cell)
    (column : string) (raw : option R) :
  to_float (DataSources.row_get header values column) = inr raw ->
  match raw with Some x => x | None => 0 end = figure header values column.
Proof.
  unfold DataSources.figure, DataSources._to_float.
  destruct (DataSources.row_get header values column) as [s |];
    [| intros H; injection H as <-; reflexivity].
  destruct (String.eqb s "" || String.eqb s "null");
    [intros H; injection H as <-; reflexivity |].
  destruct (parse_float s) as [x |]; [| discriminate].
  intros H. injection H as <-. reflexivity.
Qed.

Lemma metrics_loop_returns (header values : list DataSources.cell)
    (specs : list (string * (string * R))) (acc fl : list (string * R)) :
  DataSources.metrics_loop parse_float header values specs acc = inr fl ->
  fl = acc ++ map (entry header values) specs.
Proof.
  revert acc. induction specs as [| [key [column dv]] specs IH];
    intros acc H.
  - cbn in H. injection H as <-. now rewrite app_nil_r.
  - cbn [DataSources.metrics_loop] in H.
    destruct (to_float (DataSources.row_get header values column))
      as [e | raw] eqn:Hraw; [discriminate |].
    cbn [DataSources.and_then] in H. apply IH in H. rewrite H, <- app_assoc.
    cbn [map app fst snd]. do 4 f_equal.
    rewrite <- (to_float_returns _ _ _ _ Hraw).
    destruct raw; [reflexivity | unfold Rdiv; ring].
Qed.

End DataSourcesFacts.

Lemma divisor_one : (if 1 =? 0 then 1 else 1) = 1.
Proof. cmp_cases; reflexivity. Qed.

Lemma divisor_twelve : (if 12 =? 0 then 1 else 12) = 12.
Proof. cmp_cases; reflexivity. Qed.

Lemma or_zero_value (x : option R) :
  DataSources.or_zero x = match x with Some v => v | None => 0 end.
Proof.
  unfold DataSources.or_zero. destruct x as [v |]; [| reflexivity].
  cmp_cases; congruence.
Qed.

Lemma sample_build_returns :
  exists d,
    DataSources.build_defaults float_of_digits "hmda_2023" sample_response
      [sample_row] "31080" 360 = inr d.
Proof.
  destruct (DataSources.build_defaults float_of_digits "hmda_2023"
              sample_response [sample_row] "31080" 360) as [e | d] eqn:E.
  - cbv -[Rdiv Rplus Rmult Rinv IZR Reqb] in E. discriminate.
  - eauto.
Qed.

(** What [build_defaults] returned, from the responses. *)
Lemma build_defaults_returns
    (parse_float : string -> option R) (table : string)
    (data : list (list DataSources.cell))
    (result : list DataSources.HmdaRow)
    (cbsa_code : string) (term : Z) (d : LocationFinancialDefaults) :
  DataSources.build_defaults parse_float table data result cbsa_code term =
  inr d ->
  exists header values rest row rows,
    data = header :: values :: rest /\ result = row :: rows /\
    d = DataSources.defaults_of_metrics
          {| DataSources.strings :=
               [("name"%string,
                 match DataSources.dict_get
                         (fun k => DataSources.cell_is k "NAME")
                         (combine header values) with
                 | Some v => v
                 | None => Some ("CBSA " ++ cbsa_code)%string
                 end)];
             DataSources.floats :=
               map (fun spec : string * (string * R) =>
                      (fst spec,
                       DataSources.figure parse_float header values
                         (fst (snd spec)) /
                       (if snd (snd spec) =? 0 then 1 else snd (snd spec))))
                   DataSources.ACS_METRICS |}
          {| DataSources.strings :=
               [("cbsa"%string, Some (DataSources.row_cbsa row));
                ("name"%string, DataSources.row_cbsa_name row)];
             DataSources.floats :=
               [("property_value"%string,
                 DataSources.or_zero (DataSources.median_property_value row));
                ("loan_amount"%string,
                 DataSources.or_zero (DataSources.median_loan_amount row));
                ("interest_rate"%string,
                 DataSources.or_zero (DataSources.avg_interest_rate row))] |}
          cbsa_code term.
Proof.
  intros H. unfold DataSources.build_defaults in H.
  destruct data as [| header [| values rest]]; try discriminate.
  unfold DataSources.fetch_housing_metrics in H.
  destruct (DataSources.metrics_loop parse_float header values
              DataSources.ACS_METRICS []) as [e | fl] eqn:Hloop;
    [discriminate |].
  apply metrics_loop_returns in Hloop. cbn [app] in Hloop. subst fl.
  cbn [DataSources.and_then] in H.
  destruct result as [| row rows]; [discriminate |].
  cbn [DataSources.fetch_cbsa_summary DataSources.and_then] in H.
  injection H as <-.
  exists header, values, rest, row, rows. repeat split.
Qed.

(** X23: the defaults [build_defaults] returns carry the census figures of
    the first row of values: income and rent as reported, taxes and
    insurance as a twelfth of the annual figure, and utilities as
    electricity plus gas plus a twelfth each of water and other fuel; a
    figure whose cell is missing, [null], empty or ["null"] counts as
    [0]. *)
Theorem build_defaults_census_figures
    (parse_float : string -> option R) (table : string)
    (header values : list DataSources.cell)
    (rest : list (list DataSources.cell))
    (result : list DataSources.HmdaRow)
    (cbsa_code : string) (term : Z) (d : LocationFinancialDefaults) :
  DataSources.build_defaults parse_float table (header :: values :: rest)
    result cbsa_code term = inr d ->
  let figure := DataSources.figure parse_float header values in
  median_income d = figure "B19013_001E"%string /\
  median_rent d = figure "B25064_001E"%string /\
  monthly_taxes d = figure "B25103_001E"%string / 12 /\
  monthly_insurance d = figure "B25141_001E"%string / 12 /\
  monthly_utilities d =
  figure "B25132_001E"%string + figure "B25133_001E"%string +
  figure "B25134_001E"%string / 12 + figure "B25135_001E"%string / 12 /\
  (forall column,
     DataSources.row_get header values column = None \/
     DataSources.row_get header values column = Some ""%string \/
     DataSources.row_get header values column = Some "null"%string ->
     figure column = 0).
Proof.
  intros H figure.
  apply build_defaults_returns in H
    as (header' & values' & rest' & row & rows & Hdata & _ & ->).
  injection Hdata as <- <- <-.
  cbn. rewrite !divisor_one, !divisor_twelve.
  fold figure. repeat split; try (unfold Rdiv; rewrite Rinv_1; ring).
  intros column Hcell. subst figure. unfold DataSources.figure.
  destruct Hcell as [-> | [-> | ->]]; reflexivity.
Qed.

Lemma build_defaults_census_figures_witness :
  exists d,
    DataSources.build_defaults float_of_digits "hmda_2023" sample_response
      [sample_row] "31080" 360 = inr d /\
    monthly_taxes d =
    DataSources.figure float_of_digits
      (nth 0 sample_response []) (nth 1 sample_response [])
      "B25103_001E" / 12.
Proof.
  destruct sample_build_returns as [d Hd].
  exists d. split; [exact Hd |].
  exact (proj1 (proj2 (proj2
    (build_defaults_census_figures float_of_digits "hmda_2023" _ _ _
       [sample_row] "31080" 360 d Hd)))).
Defined.

(** X24: the defaults [build_defaults] returns carry the code and the loan
    term it was called with, and the property value, the loan amount and the
    interest rate of the first row of the HMDA result, a [NULL] counting as
    [0.0]. *)
Theorem build_defaults_hmda_figures
    (parse_float : string -> option R) (table : string)
    (data : list (list DataSources.cell))
    (row : DataSources.HmdaRow) (rows : list DataSources.HmdaRow)
    (cbsa_code : string) (term : Z) (d : LocationFinancialDefaults) :
  DataSources.build_defaults parse_float table data (row :: rows)
    cbsa_code term = inr d ->
  let value := fun x : option R => match x with Some v => v | None => 0 end in
  cbsa d = cbsa_code /\
  loan_term_months d = term /\
  property_value d = value (DataSources.median_property_value row) /\
  loan_amount d = value (DataSources.median_loan_amount row) /\
  interest_rate d = value (DataSources.avg_interest_rate row).
Proof.
  intros H value.
  apply build_defaults_returns in H
    as (header & values & rest & row' & rows' & _ & Hresult & ->).
  injection Hresult as <- <-.
  cbn. rewrite !or_zero_value. repeat split.
Qed.

Lemma build_defaults_hmda_figures_witness :
  exists d,
    DataSources.build_defaults float_of_digits "hmda_2023" sample_response
      [sample_row] "31080" 360 = inr d /\
    property_value d = 375000 /\ interest_rate d = 0.
Proof.
  destruct sample_build_returns as [d Hd].
  exists d. split; [exact Hd |].
  destruct (build_defaults_hmda_figures float_of_digits "hmda_2023"
              sample_response sample_row [] "31080" 360 d Hd)
    as (_ & _ & Hv & _ & Hr).
  split; [exact Hv | exact Hr].
Defined.

(** X25: the name of the defaults [build_defaults] returns is the HMDA name
    when that is a non-empty string, else the census [NAME] cell when that
    is one, else ["CBSA "] followed by the code. *)
Theorem build_defaults_name
    (parse_float : string -> option R) (table : string)
    (header values : list DataSources.cell)
    (rest : list (list DataSources.cell))
    (row : DataSources.HmdaRow) (rows : list DataSources.HmdaRow)
    (cbsa_code : string) (term : Z) (d : LocationFinancialDefaults) :
  DataSources.build_defaults parse_float table (header :: values :: rest)
    (row :: rows) cbsa_code term = inr d ->
  name d =
  match DataSources.nonempty (DataSources.row_cbsa_name row) with
  | Some s => s
  | None =>
      match DataSources.nonempty
              (DataSources.row_get header values "NAME") with
      | Some s => s
      | None => ("CBSA " ++ cbsa_code)%string
      end
  end.
Proof.
  intros H.
  apply build_defaults_returns in H
    as (header' & values' & rest' & row' & rows' & Hdata & Hresult & ->).
  injection Hdata as <- <- <-. injection Hresult as <- <-.
  unfold DataSources.defaults_of_metrics, DataSources.get_string.
  cbn [name DataSources.strings DataSources.dict_get fold_left fst snd
       String.eqb Ascii.eqb Bool.eqb].
  destruct (DataSources.nonempty (DataSources.row_cbsa_name row));
    [reflexivity |].
  unfold DataSources.row_get.
  destruct (DataSources.dict_get (fun k => DataSources.cell_is k "NAME")
              (combine header values)) as [c |]; [reflexivity |].
  reflexivity.
Qed.

Lemma build_defaults_name_witness :
  exists d,
    DataSources.build_defaults float_of_digits "hmda_2023" sample_response
      [sample_row] "31080" 360 = inr d /\
    name d = "Los Angeles-Long Beach-Anaheim, CA"%string.
Proof.
  destruct sample_build_returns as [d Hd].
  exists d. split; [exact Hd |].
  exact (build_defaults_name float_of_digits "hmda_2023" _ _ _
           sample_row [] "31080" 360 d Hd).
Defined.

(** X26: the outcomes of [build_defaults], in the order the code reaches
    them: a census response of fewer than two rows raises [RuntimeError];
    else a cell of a census figure that is neither [null], empty, ["null"]
    nor a number raises [ValueError]; else an empty HMDA result raises
    [RuntimeError]; else the call returns. *)
Theorem build_defaults_outcomes
    (parse_float : string -> option R) (table : string)
    (data : list (list DataSources.cell))
    (result : list DataSources.HmdaRow) (cbsa_code : string) (term : Z) :
  let outcome :=
    DataSources.build_defaults parse_float table data result cbsa_code term
  in
  ((List.length data < 2)%nat ->
   outcome =
   inl (DataSources.RuntimeError
          ("ACS query returned no rows for CBSA " ++ cbsa_code))) /\
  (forall header values rest,
     data = header :: values :: rest ->
     (~ DataSources.all_convertible parse_float header values ->
      exists s,
        outcome =
        inl (DataSources.ValueError
               ("Could not convert ACS value '" ++ s ++ "' to float"))) /\
     (DataSources.all_convertible parse_float header values ->
      (result = [] ->
       outcome =
       inl (DataSources.RuntimeError
              ("No HMDA results for CBSA " ++ cbsa_code ++ " in " ++ table)))
      /\
      (result <> [] -> exists d, outcome = inr d))).
Proof.
  intros outcome. subst outcome. split.
  - intros Hlen. unfold DataSources.build_defaults.
    destruct data as [| header [| values rest]];
      [reflexivity | reflexivity | cbn in Hlen; lia].
  - intros header values rest ->.
    unfold DataSources.build_defaults, DataSources.fetch_housing_metrics.
    split.
    + intros Hnot.
      destruct (metrics_loop_raises parse_float header values
                  DataSources.ACS_METRICS [] Hnot) as [s Hs].
      exists s. rewrite Hs. reflexivity.
    + intros Hall.
      rewrite (metrics_loop_convertible parse_float header values
                 DataSources.ACS_METRICS [] Hall).
      cbn [DataSources.and_then]. split.
      * intros ->. reflexivity.
      * intros Hne. destruct result as [| row rows]; [contradiction |].
        cbn [DataSources.fetch_cbsa_summary DataSources.and_then]. eauto.
Qed.

Lemma build_defaults_outcomes_witness :
  DataSources.build_defaults float_of_digits "hmda_2023" [] [sample_row]
    "31080" 360 =
  inl (DataSources.RuntimeError "ACS query returned no rows for CBSA 31080")
  /\
  (exists s,
     DataSources.build_defaults float_of_digits "hmda_2023"
       garbled_response [sample_row] "31080" 360 =
     inl (DataSources.ValueError
            ("Could not convert ACS value '" ++ s ++ "' to float"))) /\
  DataSources.build_defaults float_of_digits "hmda_2023" sample_response []
    "31080" 360 =
  inl (DataSources.RuntimeError
         "No HMDA results for CBSA 31080 in hmda_2023").
Proof.
  split; [| split].
  - apply (proj1 (build_defaults_outcomes float_of_digits "hmda_2023" []
                    [sample_row] "31080" 360)).
    cbn. lia.
  - refine (proj1 (proj2 (build_defaults_outcomes float_of_digits
                            "hmda_2023" garbled_response [sample_row]
                            "31080" 360) _ _ _ eq_refl) _).
    intros Hall. unfold DataSources.all_convertible in Hall.
    apply Forall_inv in Hall. cbv in Hall.
    destruct Hall as [H | [H | H]]; [discriminate | discriminate | auto].
  - refine (proj1 (proj2 (proj2 (build_defaults_outcomes float_of_digits
                            "hmda_2023" sample_response []
                            "31080" 360) _ _ _ eq_refl) _) eq_refl).
    unfold DataSources.all_convertible, DataSources.ACS_METRICS.
    repeat (apply Forall_cons;
            [ cbv -[Rdiv Rplus Rmult Rinv IZR Reqb not];
              first [ exact I | left; reflexivity
                    | right; right; discriminate ] | ]).
    apply Forall_nil.
Defined.
